(** * inspect_ai [_display/full_log/display.py]: the [full_log] display

    A shallow embedding of the module that tees task-lifecycle events to a
    terminal display and to a plain-text log file, and the properties of
    its specification.

    Python code runs here in a state-and-exception monad over a [World]:
    the ordered trace of calls the module makes on its collaborators (the
    two display backends, the log file, the logging subsystem, the
    operating system) together with the process state those calls read
    and write (the module global [_resolved_log_path], the directory
    entries of the working directory, the clock, the random source, the
    handlers of the root logger).

    Layout: Part I holds the embedding, in the order of the source file;
    Part II holds the lemmas and the theorems. *)

From Stdlib Require Import ZArith List String Ascii Bool Lia DecimalString QArith.
Import ListNotations.
Local Open Scope string_scope.
Local Open Scope Z_scope.

(* ===================================================================== *)
(** * Part I. The embedding                                               *)
(* ===================================================================== *)

(** ** Values passed through the display protocol *)

(** A raised exception, identified by its rendering. *)
Definition Exn : Type := string.

(** [TaskResult = TaskSuccess | TaskCancelled | TaskError]: the terminal
    state of a task. *)
Inductive TaskResult : Type :=
| TaskSuccess
| TaskCancelled
| TaskError (detail : string).

(** A labelled metric value; the tee never inspects it. *)
Definition TaskDisplayMetric : Type := (string * Q)%type.

Definition TaskSpec : Type := string.
Definition TaskProfile : Type := string.

(** The two branches of a tee: [BranchA] is the first constructor
    argument ([self._a], the terminal side), [BranchB] the second
    ([self._b], the file sink). *)
Inductive Branch : Type := BranchA | BranchB.

(** The screen handle a backend yields from [task_screen]. *)
Inductive TaskScreen : Type := ScreenOf (br : Branch).

(** Which concrete class backs a display object. *)
Inductive BackendKind : Type := Textual | Plain.

(** [rich.console.Console(file=..., force_terminal=..., no_color=...,
    highlight=...)]; the file is named by its object number. *)
Record Console : Type := mkConsole {
  console_file : nat;
  force_terminal : bool;
  no_color : bool;
  highlight : bool
}.

(** ** Calls observed by the collaborators *)

(** A method call received by one display backend, or by a handle that
    backend gave out. Scope exits carry the exception passed to
    [__exit__], [None] for a normal exit. *)
Inductive Call : Type :=
| CUpdate (n : Z)                                 (* Progress.update(n) *)
| CProgressComplete                               (* Progress.complete() *)
| CSampleComplete (complete total : Z)            (* TaskDisplay.sample_complete *)
| CUpdateMetrics (metrics : list TaskDisplayMetric)
| CComplete (result : TaskResult)                 (* TaskDisplay.complete(result) *)
| CProgressEnter                                  (* TaskDisplay.progress() entered *)
| CProgressExit (exc : option Exn)
| CPrint (message : string)
| CDisplayProgressEnter (total : Z)               (* Display.progress(total) entered *)
| CDisplayProgressExit (exc : option Exn)
| CRunTaskApp
| CSuspendEnter
| CSuspendExit (exc : option Exn)
| CDisplayCounter (caption value : string)
| CTaskScreenEnter (tasks : list TaskSpec) (parallel : bool)
| CTaskScreenExit (exc : option Exn)
| CTaskEnter (profile : TaskProfile)
| CTaskExit (exc : option Exn).

(** Everything the module does to the outside, in program order. File
    objects and logging handlers are named by the object number they
    were created with. *)
Inductive Event : Type :=
| EvBranch (br : Branch) (c : Call)
| EvMakedirs (name : string) (exist_ok : bool)    (* os.makedirs *)
| EvOpen (path mode : string) (buffering : Z) (fd : nat)   (* open(...) *)
| EvFileFlush (fd : nat)                          (* file.flush() *)
| EvFileClose (fd : nat)                          (* file.close() *)
| EvNewDisplay (kind : BackendKind) (console : option Console)
| EvNewFileHandler (path mode : string) (h : nat) (* logging.FileHandler(...) *)
| EvSetLevel (h : nat) (level : Z)
| EvSetFormatter (h : nat) (fmt : string)
| EvAddHandler (h : nat)                          (* getLogger().addHandler *)
| EvRemoveHandler (h : nat)                       (* getLogger().removeHandler *)
| EvHandlerClose (h : nat).                       (* handler.close() *)

(** ** Process state *)

(** What a name in the working directory denotes. *)
Inductive FsEntry : Type := Absent | Dir | RegularFile.

(** A [datetime] value. *)
Record DateTime : Type := mkDateTime {
  year : Z; month : Z; day : Z; hour : Z; minute : Z; second : Z
}.

Record Env : Type := mkEnv {
  _resolved_log_path : option string;   (* the module global *)
  cwd_entries : string -> FsEntry;      (* names in the working directory *)
  cwd_writable : bool;
  clock : nat -> DateTime;              (* successive readings of the UTC clock *)
  clock_reads : nat;
  rng : nat -> Z;                       (* successive draws of the random source *)
  rng_reads : nat;
  stdout_isatty : bool;
  console_is_jupyter : bool;
  root_handlers : list nat;             (* logging.getLogger().handlers *)
  next_obj : nat                        (* next fresh object number *)
}.

Record World : Type := mkWorld {
  trace : list Event;
  env : Env
}.

Definition record_event (ev : Event) (w : World) : World :=
  mkWorld (trace w ++ [ev]) (env w).

Definition with_env (f : Env -> Env) (w : World) : World :=
  mkWorld (trace w) (f (env w)).

Definition set_resolved_log_path (v : option string) (e : Env) : Env :=
  mkEnv v (cwd_entries e) (cwd_writable e) (clock e) (clock_reads e)
        (rng e) (rng_reads e) (stdout_isatty e) (console_is_jupyter e)
        (root_handlers e) (next_obj e).

Definition set_cwd_entry (name : string) (x : FsEntry) (e : Env) : Env :=
  mkEnv (_resolved_log_path e)
        (fun n => if String.eqb n name then x else cwd_entries e n)
        (cwd_writable e) (clock e) (clock_reads e)
        (rng e) (rng_reads e) (stdout_isatty e) (console_is_jupyter e)
        (root_handlers e) (next_obj e).

Definition tick_clock (e : Env) : Env :=
  mkEnv (_resolved_log_path e) (cwd_entries e) (cwd_writable e)
        (clock e) (S (clock_reads e))
        (rng e) (rng_reads e) (stdout_isatty e) (console_is_jupyter e)
        (root_handlers e) (next_obj e).

Definition tick_rng (e : Env) : Env :=
  mkEnv (_resolved_log_path e) (cwd_entries e) (cwd_writable e)
        (clock e) (clock_reads e)
        (rng e) (S (rng_reads e)) (stdout_isatty e) (console_is_jupyter e)
        (root_handlers e) (next_obj e).

Definition set_root_handlers (hs : list nat) (e : Env) : Env :=
  mkEnv (_resolved_log_path e) (cwd_entries e) (cwd_writable e)
        (clock e) (clock_reads e)
        (rng e) (rng_reads e) (stdout_isatty e) (console_is_jupyter e)
        hs (next_obj e).

Definition bump_next_obj (e : Env) : Env :=
  mkEnv (_resolved_log_path e) (cwd_entries e) (cwd_writable e)
        (clock e) (clock_reads e)
        (rng e) (rng_reads e) (stdout_isatty e) (console_is_jupyter e)
        (root_handlers e) (S (next_obj e)).

(** ** The monad of Python statements *)

Inductive Result (A : Type) : Type :=
| Ok (a : A)
| Raise (e : Exn).
Arguments Ok {A} a.
Arguments Raise {A} e.

Definition M (A : Type) : Type := World -> Result A * World.

Definition ret {A : Type} (a : A) : M A := fun w => (Ok a, w).

Definition raise {A : Type} (e : Exn) : M A := fun w => (Raise e, w).

Definition bind {A B : Type} (c : M A) (k : A -> M B) : M B :=
  fun w =>
    match c w with
    | (Ok a, w') => k a w'
    | (Raise e, w') => (Raise e, w')
    end.

(** Runs [c] and hands its outcome back as a value: the building block
    of [with] and [try]. *)
Definition attempt {A : Type} (c : M A) : M (Result A) :=
  fun w => let (r, w') := c w in (Ok r, w').

Definition reraise {A : Type} (r : Result A) : M A :=
  match r with
  | Ok a => ret a
  | Raise e => raise e
  end.

Declare Scope py_scope.
Delimit Scope py_scope with py.
Notation "x <- c1 ;; c2" := (bind c1 (fun x => c2))
  (at level 61, c1 at next level, right associativity) : py_scope.
Notation "c1 ;; c2" := (bind c1 (fun _ => c2))
  (at level 61, right associativity) : py_scope.
Local Open Scope py_scope.

(** [try: body finally: fin]. An exception of [fin] replaces the outcome
    of [body]. *)
Definition try_finally {A : Type} (body : M A) (fin : M unit) : M A :=
  r <- attempt body ;;
  fin ;;
  reraise r.

(** ** Outcomes of calls on collaborators *)

(** What a call on a collaborator does once it has been received: it
    returns (the boolean is the truth value of what it returns, which
    only [__exit__] callers look at) or it raises. *)
Inductive Outcome : Type :=
| Returns (truthy : bool)
| Raises (e : Exn).

(** The behaviour of the collaborators: the outcome of each call, as a
    function of the call and of everything that happened before it. *)
Definition Behaviour : Type := Event -> World -> Outcome.

(** A call on a recording collaborator: the call is recorded first, then
    its outcome takes effect. *)
Definition ext_call (beh : Behaviour) (ev : Event) : M bool :=
  fun w =>
    match beh ev w with
    | Returns b => (Ok b, record_event ev w)
    | Raises e => (Raise e, record_event ev w)
    end.

Definition ext_call_ (beh : Behaviour) (ev : Event) : M unit :=
  ext_call beh ev ;; ret tt.

(** ** Library primitives used by the module *)

(** [str(n)] for an integer. *)
Definition str_of_int (n : Z) : string := NilZero.string_of_int (Z.to_int n).

Fixpoint string_repeat (c : ascii) (n : nat) : string :=
  match n with
  | O => EmptyString
  | S n' => String c (string_repeat c n')
  end.

(** Left padding with zeros up to [width], as the numeric [strftime]
    directives do. *)
Definition zfill (width : nat) (s : string) : string :=
  string_repeat "0"%char (width - String.length s) ++ s.

Definition strftime_directive (d : ascii) (t : DateTime) : string :=
  if Ascii.eqb d "Y" then zfill 4 (str_of_int (year t))
  else if Ascii.eqb d "m" then zfill 2 (str_of_int (month t))
  else if Ascii.eqb d "d" then zfill 2 (str_of_int (day t))
  else if Ascii.eqb d "H" then zfill 2 (str_of_int (hour t))
  else if Ascii.eqb d "M" then zfill 2 (str_of_int (minute t))
  else if Ascii.eqb d "S" then zfill 2 (str_of_int (second t))
  else String "%" (String d EmptyString).

(** [t.strftime(fmt)] for the directives [%Y %m %d %H %M %S]; every other
    character stands for itself. *)
Fixpoint strftime (fmt : string) (t : DateTime) : string :=
  match fmt with
  | EmptyString => EmptyString
  | String c rest =>
      if Ascii.eqb c "%" then
        match rest with
        | EmptyString => String c EmptyString
        | String d rest' => strftime_directive d t ++ strftime rest' t
        end
      else String c (strftime rest t)
  end.

(** The fields of a [datetime] object lie in these ranges. *)
Definition valid_datetime (t : DateTime) : bool :=
  (1 <=? year t) && (year t <=? 9999) &&
  (1 <=? month t) && (month t <=? 12) &&
  (1 <=? day t) && (day t <=? 31) &&
  (0 <=? hour t) && (hour t <=? 23) &&
  (0 <=? minute t) && (minute t <=? 59) &&
  (0 <=? second t) && (second t <=? 59).

(** [datetime.now(timezone.utc)]: one reading of the clock. *)
Definition datetime_now_utc : M DateTime :=
  fun w => (Ok (clock (env w) (clock_reads (env w))), with_env tick_clock w).

Definition hex_char (d : Z) : ascii :=
  match String.get (Z.to_nat d) "0123456789abcdef" with
  | Some c => c
  | None => "0"%char
  end.

(** The [k] low hexadecimal digits of [n], most significant first. *)
Fixpoint hex_digits (k : nat) (n : Z) : string :=
  match k with
  | O => EmptyString
  | S k' => hex_digits k' (n / 16) ++ String (hex_char (n mod 16)) EmptyString
  end.

(** [uuid.uuid4()]: a 128-bit integer drawn from the random source (the
    version and variant bits, which lie beyond the first eight
    hexadecimal digits, are left as drawn). *)
Definition uuid4 : M Z :=
  fun w => (Ok (rng (env w) (rng_reads (env w)) mod 2 ^ 128), with_env tick_rng w).

(** [UUID.hex]: the integer as 32 lower-case hexadecimal digits. *)
Definition uuid_hex (u : Z) : string := hex_digits 32 u.

(** [s[:n]]. *)
Definition str_prefix (n : nat) (s : string) : string := substring 0 n s.

Definition startswith (p s : string) : bool := String.prefix p s.

Definition endswith (p s : string) : bool :=
  String.eqb p
    (substring (String.length s - String.length p) (String.length p) s)
  && (String.length p <=? String.length s)%nat.

(** [os.path.join(a, b)] on a POSIX system. *)
Definition os_path_join (a b : string) : string :=
  if startswith "/" b then b
  else if (String.eqb a "" || endswith "/" a)%bool then a ++ b
  else a ++ "/" ++ b.

(** [os.makedirs(name, exist_ok=...)] for a one-component relative
    [name]: [mkdir] in the working directory; when the name is taken the
    call succeeds only if [exist_ok] holds and the name is a directory. *)
Definition os_makedirs (name : string) (exist_ok : bool) : M unit :=
  fun w =>
    let w1 := record_event (EvMakedirs name exist_ok) w in
    match cwd_entries (env w) name with
    | Absent =>
        if cwd_writable (env w)
        then (Ok tt, with_env (set_cwd_entry name Dir) w1)
        else (Raise "PermissionError", w1)
    | Dir => if exist_ok then (Ok tt, w1) else (Raise "FileExistsError", w1)
    | RegularFile => (Raise "FileExistsError", w1)
    end.

Definition read_resolved_log_path : M (option string) :=
  fun w => (Ok (_resolved_log_path (env w)), w).

Definition write_resolved_log_path (p : string) : M unit :=
  fun w => (Ok tt, with_env (set_resolved_log_path (Some p)) w).

(** ** [default_plain_log_path] *)

(** The branch of the source taken when the global is [None] assigns the
    global and falls through to [return _resolved_log_path]; the other
    branch returns the global as it is. *)
Definition default_plain_log_path : M string :=
  cached <- read_resolved_log_path ;;
  match cached with
  | None =>
      now <- datetime_now_utc ;;
      let timestamp := strftime "%Y%m%dT%H%M%S" now in
      u <- uuid4 ;;
      let hash_suffix := str_prefix 8 (uuid_hex u) in
      let logs_dir := "logs" in
      os_makedirs logs_dir true ;;
      let p := os_path_join logs_dir
                 ("terminal_log_" ++ timestamp ++ "_" ++ hash_suffix ++ ".txt") in
      write_resolved_log_path p ;;
      ret p
  | Some p => ret p
  end.

(** ** The shape of a log path *)

Inductive CharClass : Type :=
| Lit (c : ascii)
| Digit
| HexDigit.

Definition is_digit (c : ascii) : bool :=
  let n := nat_of_ascii c in (48 <=? n)%nat && (n <=? 57)%nat.

Definition is_hex_digit (c : ascii) : bool :=
  let n := nat_of_ascii c in
  is_digit c || ((97 <=? n)%nat && (n <=? 102)%nat).

Definition class_ok (k : CharClass) (c : ascii) : bool :=
  match k with
  | Lit c' => Ascii.eqb c' c
  | Digit => is_digit c
  | HexDigit => is_hex_digit c
  end.

(** [matches pat s]: [s] has one character per class of [pat], each in
    its class. *)
Fixpoint matches (pat : list CharClass) (s : string) : bool :=
  match pat, s with
  | [], EmptyString => true
  | k :: pat', String c s' => class_ok k c && matches pat' s'
  | _, _ => false
  end.


(** [YYYYMMDDTHHMMSS]. *)
Definition timestamp_pattern : list CharClass :=
  repeat Digit 8 ++ [Lit "T"] ++ repeat Digit 6.




(** Later calls of [default_plain_log_path], each preceded by whatever
    the rest of the process did to the world in between. *)
Fixpoint later_calls (between : list (World -> World)) (w : World)
  : list (Result string) :=
  match between with
  | [] => []
  | f :: rest =>
      let (r, w') := default_plain_log_path (f w) in
      r :: later_calls rest w'
  end.

(** Code outside this module never assigns the global. *)
Definition keeps_resolved_log_path (f : World -> World) : Prop :=
  forall w, _resolved_log_path (env (f w)) = _resolved_log_path (env w).

Definition makedirs_calls (t : list Event) : nat :=
  List.length (filter (fun ev => match ev with EvMakedirs _ _ => true | _ => false end) t).

(** ** Scoped resources: [with], generators and [contextlib] *)

(** [__exit__(exc)]: receives the exception leaving the block, [None]
    for a normal exit; a true result swallows the exception. *)
Definition Exit : Type := option Exn -> M bool.

(** A context manager: entering it yields a value and the [__exit__] to
    run when the block is left. *)
Definition CM (Y : Type) : Type := M (Y * Exit).

(** The second half of a [with] statement: run the block, then the
    exit with the way the block ended. *)
Definition with_exit (exit : Exit) (block : M unit) : M unit :=
  r <- attempt block ;;
  match r with
  | Ok _ => exit None ;; ret tt
  | Raise e =>
      suppressed <- exit (Some e) ;;
      if (suppressed : bool) then ret tt else raise e
  end.

(** [with cm as y: block]. *)
Definition with_ {Y : Type} (cm : CM Y) (block : Y -> M unit) : M unit :=
  entered <- cm ;;
  with_exit (snd entered) (block (fst entered)).

(** A generator function with one [yield], run up to that [yield]: it
    either stopped there, with the value yielded and the rest of the
    body (resumed with [None] by [next], with an exception by [throw]),
    or it finished without yielding. *)
Inductive GenStep (Y : Type) : Type :=
| Yielded (y : Y) (resume : option Exn -> M unit)
| Finished.
Arguments Yielded {Y} y resume.
Arguments Finished {Y}.

Definition Gen (Y : Type) : Type := M (GenStep Y).

(** [yield y]. *)
Definition yield {Y : Type} (y : Y) : Gen Y :=
  ret (Yielded y (fun thrown =>
                    match thrown with
                    | None => ret tt
                    | Some e => raise e
                    end)).

(** [with cm as x: block] where [block] contains the [yield]. *)
Definition with_gen {X Y : Type} (cm : CM X) (block : X -> Gen Y) : Gen Y :=
  entered <- cm ;;
  let exit := snd entered in
  r <- attempt (block (fst entered)) ;;
  match r with
  | Ok (Yielded y resume) =>
      ret (Yielded y (fun thrown => with_exit exit (resume thrown)))
  | Ok Finished => exit None ;; ret Finished
  | Raise e =>
      suppressed <- exit (Some e) ;;
      if (suppressed : bool) then ret Finished else raise e
  end.

(** [try: block finally: fin] where [block] contains the [yield]. *)
Definition try_finally_gen {Y : Type} (block : Gen Y) (fin : M unit) : Gen Y :=
  r <- attempt block ;;
  match r with
  | Ok (Yielded y resume) =>
      ret (Yielded y (fun thrown => try_finally (resume thrown) fin))
  | Ok Finished => fin ;; ret Finished
  | Raise e => fin ;; raise e
  end.

(** [@contextlib.contextmanager]: [__enter__] runs the generator to its
    [yield]; [__exit__] resumes it, and reports an exception as swallowed
    when the generator then finishes normally. *)
Definition contextmanager {Y : Type} (gen : Gen Y) : CM Y :=
  step <- gen ;;
  match step with
  | Finished => raise "RuntimeError: generator didn't yield"
  | Yielded y resume =>
      ret (y, fun exc =>
                match exc with
                | None => resume None ;; ret false
                | Some e =>
                    r <- attempt (resume (Some e)) ;;
                    match r with
                    | Ok _ => ret true
                    | Raise e' => if String.eqb e' e then ret false else raise e'
                    end
                end)
  end.

(** [@contextlib.asynccontextmanager]. Execution is single-threaded and
    cooperative, so the awaits of [async with] are sequencing points and
    the protocol is the synchronous one. *)
Definition asynccontextmanager {Y : Type} (gen : Gen Y) : CM Y :=
  contextmanager gen.

(** ** The display protocol ([..core.display]) *)

Record Progress : Type := mkProgress {
  Progress_update : Z -> M unit;
  Progress_complete : M unit
}.

Record TaskDisplay : Type := mkTaskDisplay {
  TaskDisplay_progress : CM Progress;
  TaskDisplay_sample_complete : Z -> Z -> M unit;
  TaskDisplay_update_metrics : list TaskDisplayMetric -> M unit;
  TaskDisplay_complete : TaskResult -> M unit
}.

Record Display : Type := mkDisplay {
  Display_print : string -> M unit;
  Display_progress : Z -> CM Progress;
  Display_run_task_app : forall TR : Type, M TR -> M TR;
  Display_suspend_task_app : CM unit;
  Display_display_counter : string -> string -> M unit;
  Display_task_screen : list TaskSpec -> bool -> CM TaskScreen;
  Display_task : TaskProfile -> CM TaskDisplay
}.

(** ** [_TeeProgress] *)

Definition _TeeProgress_update (a b : Progress) (n : Z) : M unit :=
  Progress_update a n ;;
  Progress_update b n.

Definition _TeeProgress_complete (a b : Progress) : M unit :=
  Progress_complete a ;;
  Progress_complete b.

Definition _TeeProgress (a b : Progress) : Progress :=
  {| Progress_update := _TeeProgress_update a b;
     Progress_complete := _TeeProgress_complete a b |}.

(** ** [_TeeTaskDisplay] *)

Definition _TeeTaskDisplay_progress (a b : TaskDisplay) : CM Progress :=
  contextmanager
    (with_gen (TaskDisplay_progress a) (fun pa =>
     with_gen (TaskDisplay_progress b) (fun pb =>
     yield (_TeeProgress pa pb)))).

Definition _TeeTaskDisplay_sample_complete (a b : TaskDisplay)
    (complete total : Z) : M unit :=
  TaskDisplay_sample_complete a complete total ;;
  TaskDisplay_sample_complete b complete total.

Definition _TeeTaskDisplay_update_metrics (a b : TaskDisplay)
    (metrics : list TaskDisplayMetric) : M unit :=
  TaskDisplay_update_metrics a metrics ;;
  TaskDisplay_update_metrics b metrics.

Definition _TeeTaskDisplay_complete (a b : TaskDisplay)
    (result : TaskResult) : M unit :=
  TaskDisplay_complete a result ;;
  TaskDisplay_complete b result.

Definition _TeeTaskDisplay (a b : TaskDisplay) : TaskDisplay :=
  {| TaskDisplay_progress := _TeeTaskDisplay_progress a b;
     TaskDisplay_sample_complete := _TeeTaskDisplay_sample_complete a b;
     TaskDisplay_update_metrics := _TeeTaskDisplay_update_metrics a b;
     TaskDisplay_complete := _TeeTaskDisplay_complete a b |}.

(** ** Recording collaborators

    The two backends are outside this module. They are taken as
    recording objects: each call is appended to the trace under the
    branch it was made on, and returns or raises as the [Behaviour]
    says. *)

Definition recording_scope {Y : Type} (beh : Behaviour)
    (enter : Event) (exit : option Exn -> Event) (y : Y) : CM Y :=
  ext_call beh enter ;;
  ret (y, fun exc => ext_call beh (exit exc)).

Definition recording_Progress (beh : Behaviour) (br : Branch) : Progress :=
  {| Progress_update := fun n => ext_call_ beh (EvBranch br (CUpdate n));
     Progress_complete := ext_call_ beh (EvBranch br CProgressComplete) |}.

Definition recording_TaskDisplay (beh : Behaviour) (br : Branch) : TaskDisplay :=
  {| TaskDisplay_progress :=
       recording_scope beh (EvBranch br CProgressEnter)
         (fun exc => EvBranch br (CProgressExit exc))
         (recording_Progress beh br);
     TaskDisplay_sample_complete := fun complete total =>
       ext_call_ beh (EvBranch br (CSampleComplete complete total));
     TaskDisplay_update_metrics := fun metrics =>
       ext_call_ beh (EvBranch br (CUpdateMetrics metrics));
     TaskDisplay_complete := fun result =>
       ext_call_ beh (EvBranch br (CComplete result)) |}.

Definition recording_Display (beh : Behaviour) (br : Branch) : Display :=
  {| Display_print := fun message => ext_call_ beh (EvBranch br (CPrint message));
     Display_progress := fun total =>
       recording_scope beh (EvBranch br (CDisplayProgressEnter total))
         (fun exc => EvBranch br (CDisplayProgressExit exc))
         (recording_Progress beh br);
     Display_run_task_app := fun TR main =>
       ext_call_ beh (EvBranch br CRunTaskApp) ;; main;
     Display_suspend_task_app :=
       recording_scope beh (EvBranch br CSuspendEnter)
         (fun exc => EvBranch br (CSuspendExit exc)) tt;
     Display_display_counter := fun caption value =>
       ext_call_ beh (EvBranch br (CDisplayCounter caption value));
     Display_task_screen := fun tasks parallel =>
       recording_scope beh (EvBranch br (CTaskScreenEnter tasks parallel))
         (fun exc => EvBranch br (CTaskScreenExit exc)) (ScreenOf br);
     Display_task := fun profile =>
       recording_scope beh (EvBranch br (CTaskEnter profile))
         (fun exc => EvBranch br (CTaskExit exc))
         (recording_TaskDisplay beh br) |}.

(** ** The tees over recording branches *)

(** The five calls a tee forwards. *)
Inductive TeeOp : Type :=
| OpUpdate (n : Z)                       (* _TeeProgress.update(n) *)
| OpProgressComplete                     (* _TeeProgress.complete() *)
| OpSampleComplete (complete total : Z)  (* _TeeTaskDisplay.sample_complete *)
| OpUpdateMetrics (metrics : list TaskDisplayMetric)
| OpComplete (result : TaskResult).      (* _TeeTaskDisplay.complete(result) *)

(** The call a branch receives when the tee forwards [op]. *)
Definition call_of (op : TeeOp) : Call :=
  match op with
  | OpUpdate n => CUpdate n
  | OpProgressComplete => CProgressComplete
  | OpSampleComplete c t => CSampleComplete c t
  | OpUpdateMetrics ms => CUpdateMetrics ms
  | OpComplete r => CComplete r
  end.

(** The call [op] as one branch receives it: on its progress handle for
    the two progress operations, on its task display handle for the
    other three. *)
Definition forwarded_call (pr : Progress) (td : TaskDisplay) (op : TeeOp)
  : M unit :=
  match op with
  | OpUpdate n => Progress_update pr n
  | OpProgressComplete => Progress_complete pr
  | OpSampleComplete c t => TaskDisplay_sample_complete td c t
  | OpUpdateMetrics ms => TaskDisplay_update_metrics td ms
  | OpComplete r => TaskDisplay_complete td r
  end.

(** The call [op] made on the tees over the handles of two branches. *)
Definition tee_call (pa pb : Progress) (ta tb : TaskDisplay) (op : TeeOp)
  : M unit :=
  forwarded_call (_TeeProgress pa pb) (_TeeTaskDisplay ta tb) op.

Definition tee_progress (beh : Behaviour) : Progress :=
  _TeeProgress (recording_Progress beh BranchA) (recording_Progress beh BranchB).

Definition tee_task_display (beh : Behaviour) : TaskDisplay :=
  _TeeTaskDisplay (recording_TaskDisplay beh BranchA)
                  (recording_TaskDisplay beh BranchB).

(** The call [op] made on the tees over two recording branches. *)
Definition run_tee_op (beh : Behaviour) (op : TeeOp) : M unit :=
  tee_call (recording_Progress beh BranchA) (recording_Progress beh BranchB)
           (recording_TaskDisplay beh BranchA) (recording_TaskDisplay beh BranchB)
           op.

(** The events recorded between world [w] and a later world [w']. *)
Definition events_since (w w' : World) : list Event :=
  skipn (List.length (trace w)) (trace w').

Definition branch_eqb (x y : Branch) : bool :=
  match x, y with
  | BranchA, BranchA | BranchB, BranchB => true
  | _, _ => false
  end.

Definition is_completion_on (br : Branch) (ev : Event) : bool :=
  match ev with
  | EvBranch br' (CComplete _) => branch_eqb br br'
  | _ => false
  end.

(** How many terminal-completion notifications branch [br] received. *)
Definition completions_on (br : Branch) (t : list Event) : nat :=
  List.length (filter (is_completion_on br) t).

Definition is_complete_op (op : TeeOp) : bool :=
  match op with
  | OpComplete _ => true
  | _ => false
  end.

(** The life of one tee handle: the caller makes the calls [ops] in
    order and carries on after a call that raised. *)
Fixpoint handle_lifetime (beh : Behaviour) (ops : list TeeOp) (w : World) : World :=
  match ops with
  | [] => w
  | op :: rest => handle_lifetime beh rest (snd (run_tee_op beh op w))
  end.

(** ** Builtins and [logging] *)

Definition fresh_obj : M nat :=
  fun w => (Ok (next_obj (env w)), with_env bump_next_obj w).

(** [open(path, mode, buffering=...)]. *)
Definition builtin_open (beh : Behaviour) (path mode : string) (buffering : Z)
  : M nat :=
  fd <- fresh_obj ;;
  ext_call beh (EvOpen path mode buffering fd) ;;
  ret fd.

(** [file.flush()]. *)
Definition file_flush (beh : Behaviour) (fd : nat) : M unit :=
  ext_call_ beh (EvFileFlush fd).

(** [logging.FileHandler(path, mode=...)]. *)
Definition logging_FileHandler (beh : Behaviour) (path mode : string) : M nat :=
  h <- fresh_obj ;;
  ext_call beh (EvNewFileHandler path mode h) ;;
  ret h.

Definition logging_DEBUG : Z := 10.

Definition handler_setLevel (h : nat) (level : Z) : M unit :=
  fun w => (Ok tt, record_event (EvSetLevel h level) w).

Definition handler_setFormatter (h : nat) (fmt : string) : M unit :=
  fun w => (Ok tt, record_event (EvSetFormatter h fmt) w).

Definition mem_nat (x : nat) (l : list nat) : bool := existsb (Nat.eqb x) l.

Fixpoint remove_first (x : nat) (l : list nat) : list nat :=
  match l with
  | [] => []
  | y :: l' => if Nat.eqb x y then l' else y :: remove_first x l'
  end.

(** [logging.getLogger().addHandler(h)]: appends [h] unless it is
    already attached. *)
Definition logger_addHandler (h : nat) : M unit :=
  fun w =>
    let hs := root_handlers (env w) in
    (Ok tt,
     with_env (set_root_handlers (if mem_nat h hs then hs else hs ++ [h]))
              (record_event (EvAddHandler h) w)).

(** [logging.getLogger().removeHandler(h)]: detaches [h] if attached. *)
Definition logger_removeHandler (h : nat) : M unit :=
  fun w =>
    (Ok tt,
     with_env (set_root_handlers (remove_first h (root_handlers (env w))))
              (record_event (EvRemoveHandler h) w)).

(** [handler.close()]. *)
Definition handler_close (beh : Behaviour) (h : nat) : M unit :=
  ext_call_ beh (EvHandlerClose h).

Definition sys_stdout_isatty : M bool :=
  fun w => (Ok (stdout_isatty (env w)), w).

Definition rich_console_is_jupyter : M bool :=
  fun w => (Ok (console_is_jupyter (env w)), w).

(** [TextualDisplay()] and [PlainDisplay(console=...)], from the sibling
    packages: constructing one is a call that may fail; the object made
    records under the branch it is built for. *)
Definition TextualDisplay (beh : Behaviour) (br : Branch) : M Display :=
  ext_call beh (EvNewDisplay Textual None) ;;
  ret (recording_Display beh br).

Definition PlainDisplay (beh : Behaviour) (console : option Console)
    (br : Branch) : M Display :=
  ext_call beh (EvNewDisplay Plain console) ;;
  ret (recording_Display beh br).

(** ** [FullLogDisplay] *)

Record FullLogDisplay : Type := mkFullLogDisplay {
  _full : Display;
  log_path : string;
  _log_file : nat;
  _sink : Display;
  _log_handler : nat
}.

Definition log_format : string :=
  "%(asctime)s %(levelname)s %(name)s: %(message)s".

Definition FullLogDisplay___init__ (beh : Behaviour) : M FullLogDisplay :=
  tty <- sys_stdout_isatty ;;
  jupyter <- rich_console_is_jupyter ;;
  full <- (if (tty && negb jupyter)%bool
           then TextualDisplay beh BranchA
           else PlainDisplay beh None BranchA) ;;
  path <- default_plain_log_path ;;
  log_file <- builtin_open beh path "w" 1 ;;
  let file_console := mkConsole log_file false true false in
  sink <- PlainDisplay beh (Some file_console) BranchB ;;
  handler <- logging_FileHandler beh path "a" ;;
  handler_setLevel handler logging_DEBUG ;;
  handler_setFormatter handler log_format ;;
  logger_addHandler handler ;;
  ret (mkFullLogDisplay full path log_file sink handler).

Definition FullLogDisplay_print (self : FullLogDisplay) (message : string)
  : M unit :=
  Display_print (_full self) message.

Definition FullLogDisplay_progress (self : FullLogDisplay) (total : Z)
  : CM Progress :=
  contextmanager
    (with_gen (Display_progress (_full self) total) (fun p => yield p)).

Definition FullLogDisplay_run_task_app (self : FullLogDisplay)
    (TR : Type) (main : M TR) : M TR :=
  Display_run_task_app (_full self) TR main.

Definition FullLogDisplay_suspend_task_app (self : FullLogDisplay) : CM unit :=
  contextmanager
    (with_gen (Display_suspend_task_app (_full self)) (fun _ => yield tt)).

Definition FullLogDisplay_display_counter (self : FullLogDisplay)
    (caption value : string) : M unit :=
  Display_display_counter (_full self) caption value.

(** The [finally] block of [task_screen]. *)
Definition task_screen_finally (beh : Behaviour) (self : FullLogDisplay)
  : M unit :=
  file_flush beh (_log_file self) ;;
  logger_removeHandler (_log_handler self) ;;
  handler_close beh (_log_handler self).

(** The two nested [async with] blocks of [task_screen]. *)
Definition task_screen_scopes (self : FullLogDisplay)
    (tasks : list TaskSpec) (parallel : bool) : Gen TaskScreen :=
  with_gen (Display_task_screen (_full self) tasks parallel) (fun screen =>
  with_gen (Display_task_screen (_sink self) tasks parallel) (fun _ =>
  yield screen)).

Definition FullLogDisplay_task_screen (beh : Behaviour) (self : FullLogDisplay)
    (tasks : list TaskSpec) (parallel : bool) : CM TaskScreen :=
  asynccontextmanager
    (try_finally_gen (task_screen_scopes self tasks parallel)
                     (task_screen_finally beh self)).

Definition FullLogDisplay_task (self : FullLogDisplay) (profile : TaskProfile)
  : CM TaskDisplay :=
  contextmanager
    (with_gen (Display_task (_full self) profile) (fun full_td =>
     with_gen (Display_task (_sink self) profile) (fun sink_td =>
     yield (_TeeTaskDisplay full_td sink_td)))).

Definition FullLogDisplay_as_Display (beh : Behaviour) (self : FullLogDisplay)
  : Display :=
  {| Display_print := FullLogDisplay_print self;
     Display_progress := FullLogDisplay_progress self;
     Display_run_task_app := FullLogDisplay_run_task_app self;
     Display_suspend_task_app := FullLogDisplay_suspend_task_app self;
     Display_display_counter := FullLogDisplay_display_counter self;
     Display_task_screen := FullLogDisplay_task_screen beh self;
     Display_task := FullLogDisplay_task self |}.

(** ** Observations on a run *)

(** The calls of the [finally] block of [task_screen]. *)
Definition is_finalization (ev : Event) : bool :=
  match ev with
  | EvFileFlush _ | EvRemoveHandler _ | EvHandlerClose _ => true
  | _ => false
  end.

Definition finalizations (t : list Event) : list Event :=
  filter is_finalization t.

Definition count_events (p : Event -> bool) (t : list Event) : nat :=
  List.length (filter p t).

Definition is_flush_of (fd : nat) (ev : Event) : bool :=
  match ev with EvFileFlush fd' => Nat.eqb fd fd' | _ => false end.

Definition is_close_of (fd : nat) (ev : Event) : bool :=
  match ev with EvFileClose fd' => Nat.eqb fd fd' | _ => false end.

Definition is_open_of (fd : nat) (ev : Event) : bool :=
  match ev with EvOpen _ _ _ fd' => Nat.eqb fd fd' | _ => false end.

Definition is_remove_of (h : nat) (ev : Event) : bool :=
  match ev with EvRemoveHandler h' => Nat.eqb h h' | _ => false end.

Definition is_handler_close_of (h : nat) (ev : Event) : bool :=
  match ev with EvHandlerClose h' => Nat.eqb h h' | _ => false end.

(** A display over recording backends, as [__init__] assembles it. *)
Definition assembled (beh : Behaviour) (path : string) (log_file handler : nat)
  : FullLogDisplay :=
  mkFullLogDisplay (recording_Display beh BranchA) path log_file
                   (recording_Display beh BranchB) handler.

(** One use of the task-screen scope: [async with
    display.task_screen(tasks, parallel) as screen: block(screen)]. *)
Definition use_task_screen (beh : Behaviour) (self : FullLogDisplay)
    (tasks : list TaskSpec) (parallel : bool) (block : TaskScreen -> M unit)
  : M unit :=
  with_ (FullLogDisplay_task_screen beh self tasks parallel) block.

(** The same use without the [try ... finally] around the two scopes. *)
Definition use_task_screen_scopes (self : FullLogDisplay)
    (tasks : list TaskSpec) (parallel : bool) (block : TaskScreen -> M unit)
  : M unit :=
  with_ (asynccontextmanager (task_screen_scopes self tasks parallel)) block.

(** The attributes of an instance, as [vars(self)] lists them. *)
Inductive AttrValue : Type :=
| AStr (s : string)
| AFile (fd : nat)
| AHandler (h : nat)
| ADisplay (d : Display).

Definition instance_dict (self : FullLogDisplay) : list (string * AttrValue) :=
  [ ("_full", ADisplay (_full self));
    ("log_path", AStr (log_path self));
    ("_log_file", AFile (_log_file self));
    ("_sink", ADisplay (_sink self));
    ("_log_handler", AHandler (_log_handler self)) ].

(** Names without a leading underscore are the public ones. *)
Definition is_public (name : string) : bool := negb (startswith "_" name).

Definition public_attributes (self : FullLogDisplay) : list (string * AttrValue) :=
  filter (fun kv => is_public (fst kv)) (instance_dict self).

(** The call returned, with whatever value. *)
Definition returns_normally (o : Outcome) : bool :=
  match o with
  | Returns _ => true
  | Raises _ => false
  end.

(** The exception a block ended with, [None] when it ended normally. *)
Definition exception_of {A : Type} (r : Result A) : option Exn :=
  match r with
  | Ok _ => None
  | Raise e => Some e
  end.

(** The exception an [__exit__] with outcome [o] hands on to the
    enclosing scope, when [exc] is what left the block: its own when it
    raises, none when it swallows, [exc] otherwise. *)
Definition handed_on (o : Outcome) (exc : option Exn) : option Exn :=
  match o with
  | Raises e => Some e
  | Returns true => None
  | Returns false => exc
  end.

(** The terminal-completion notification reached both branches, or it
    reached neither. *)
Definition delivered_to_both_or_neither (t : list Event) : Prop :=
  (completions_on BranchA t = O /\ completions_on BranchB t = O)
  \/ ((0 < completions_on BranchA t)%nat /\ (0 < completions_on BranchB t)%nat).

(** ** Sample worlds and behaviours *)

(** A process that has just started in an empty working directory. *)
Definition sample_env : Env :=
  mkEnv None (fun _ => Absent) true
        (fun _ => mkDateTime 2024 1 2 3 4 5) 0
        (fun i => 3735928559 * 2 ^ 96 + Z.of_nat i) 0
        false false [] 0.

Definition fresh_process : World := mkWorld [] sample_env.

(** Every call on a collaborator returns [None]. *)
Definition calm : Behaviour := fun _ _ => Returns false.

(** Branch A fails when told that the task completed. *)
Definition a_raises_on_complete : Behaviour :=
  fun ev _ =>
    match ev with
    | EvBranch BranchA (CComplete _) => Raises "backend failure"
    | _ => Returns false
    end.

(** Branch A fails on every forwarded call. *)
Definition a_raises : Behaviour :=
  fun ev _ =>
    match ev with
    | EvBranch BranchA _ => Raises "backend failure"
    | _ => Returns false
    end.

(** Flushing the log file fails. *)
Definition flush_raises : Behaviour :=
  fun ev _ =>
    match ev with
    | EvFileFlush _ => Raises "OSError"
    | _ => Returns false
    end.

(** A block that does nothing. *)
Definition idle_block : TaskScreen -> M unit := fun _ => ret tt.

(** A display constructed and used for one batch of tasks. *)
Definition single_batch (beh : Behaviour) : M FullLogDisplay :=
  d <- FullLogDisplay___init__ beh ;;
  use_task_screen beh d ["task"] false idle_block ;;
  ret d.

(** The same display used for two batches in a row. *)
Definition two_batches (beh : Behaviour) : M FullLogDisplay :=
  d <- FullLogDisplay___init__ beh ;;
  use_task_screen beh d ["first"] false idle_block ;;
  use_task_screen beh d ["second"] false idle_block ;;
  ret d.

(** The calls branch [br] received, in order. *)
Definition calls_on (br : Branch) (t : list Event) : list Call :=
  flat_map (fun ev =>
              match ev with
              | EvBranch br' c => if branch_eqb br br' then [c] else []
              | _ => []
              end) t.

(** The scenario of the specification: a display over two recording
    backends, a task screen for two tasks, one task that reports a
    metric and a sample and completes. *)
Definition scenario (beh : Behaviour) : M unit :=
  d <- FullLogDisplay___init__ beh ;;
  use_task_screen beh d ["first"; "second"] false (fun _ =>
    with_ (FullLogDisplay_task d "first") (fun td =>
      TaskDisplay_update_metrics td [("accuracy", Qmake 9 10)] ;;
      TaskDisplay_sample_complete td 1 2 ;;
      TaskDisplay_complete td TaskSuccess)).

(** The trace holds one flush of the log file of [d], one removal and
    one close of its logging handler. *)
Definition finalized_exactly_once (d : FullLogDisplay) (t : list Event) : Prop :=
  count_events (is_flush_of (_log_file d)) t = 1%nat
  /\ count_events (is_remove_of (_log_handler d)) t = 1%nat
  /\ count_events (is_handler_close_of (_log_handler d)) t = 1%nat.

(** The objects created on a file: path, mode and object number of each
    [open] and of each [logging.FileHandler]. *)
Definition file_openings (t : list Event) : list (string * string * nat) :=
  flat_map (fun ev =>
              match ev with
              | EvOpen p m _ fd => [(p, m, fd)]
              | EvNewFileHandler p m h => [(p, m, h)]
              | _ => []
              end) t.

(** The file object [fd] was opened once and closed once. *)
Definition opened_once_closed_once (fd : nat) (t : list Event) : Prop :=
  count_events (is_open_of fd) t = 1%nat
  /\ count_events (is_close_of fd) t = 1%nat.

(** ** Calls a computation does not make *)

(** [c] makes no call selected by [p]: the selected part of the trace is
    the same after [c] as before, however [c] ends. *)
Definition quiet (p : Event -> bool) {A : Type} (c : M A) : Prop :=
  forall w, filter p (trace (snd (c w))) = filter p (trace w).

(** The same for a context manager: entering it is quiet, what it yields
    satisfies [Q], and its [__exit__] is quiet. *)
Definition quiet_cm (p : Event -> bool) {Y : Type} (Q : Y -> Prop)
    (cm : CM Y) : Prop :=
  forall w,
    filter p (trace (snd (cm w))) = filter p (trace w)
    /\ match fst (cm w) with
       | Ok (y, exit) => Q y /\ forall exc, quiet p (exit exc)
       | Raise _ => True
       end.

(** The same for a generator: running it to its [yield] is quiet, what
    it yields satisfies [Q], and so is resuming it. *)
Definition quiet_gen (p : Event -> bool) {Y : Type} (Q : Y -> Prop)
    (gen : Gen Y) : Prop :=
  forall w,
    filter p (trace (snd (gen w))) = filter p (trace w)
    /\ match fst (gen w) with
       | Ok (Yielded y resume) => Q y /\ forall thrown, quiet p (resume thrown)
       | _ => True
       end.

Definition quiet_Progress (p : Event -> bool) (pr : Progress) : Prop :=
  (forall n, quiet p (Progress_update pr n))
  /\ quiet p (Progress_complete pr).

Definition quiet_TaskDisplay (p : Event -> bool) (td : TaskDisplay) : Prop :=
  quiet_cm p (quiet_Progress p) (TaskDisplay_progress td)
  /\ (forall complete total, quiet p (TaskDisplay_sample_complete td complete total))
  /\ (forall metrics, quiet p (TaskDisplay_update_metrics td metrics))
  /\ (forall result, quiet p (TaskDisplay_complete td result)).

(** No operation of the display [d], and no handle it gives out, makes a
    call selected by [p]. [run_task_app] runs the caller's [main], so it
    is as quiet as [main] is. *)
Definition quiet_Display (p : Event -> bool) (d : Display) : Prop :=
  (forall message, quiet p (Display_print d message))
  /\ (forall total, quiet_cm p (quiet_Progress p) (Display_progress d total))
  /\ (forall TR (main : M TR), quiet p main -> quiet p (Display_run_task_app d TR main))
  /\ quiet_cm p (fun _ => True) (Display_suspend_task_app d)
  /\ (forall caption value, quiet p (Display_display_counter d caption value))
  /\ (forall tasks parallel,
        quiet_cm p (fun _ => True) (Display_task_screen d tasks parallel))
  /\ (forall profile, quiet_cm p (quiet_TaskDisplay p) (Display_task d profile)).

(** [p] selects no call on a display backend. *)
Definition off_backends (p : Event -> bool) : Prop :=
  forall br c, p (EvBranch br c) = false.


(** ** Further observations *)

(** What an [__exit__] that ended as [r] hands on to the enclosing
    scope, when [exc] is what left the block. *)
Definition passed_on (r : Result bool) (exc : option Exn) : option Exn :=
  match r with
  | Raise e => Some e
  | Ok true => None
  | Ok false => exc
  end.

(** How a [with] statement ends when its [__exit__], given [exc], ended
    as [r]. *)
Definition leaving (r : Result bool) (exc : option Exn) : Result unit :=
  match r with
  | Raise e => Raise e
  | Ok true => Ok tt
  | Ok false =>
      match exc with
      | None => Ok tt
      | Some e => Raise e
      end
  end.

(** One use of the task scope: [with display.task(profile) as td:
    block(td)]. *)
Definition use_task (self : FullLogDisplay) (profile : TaskProfile)
    (block : TaskDisplay -> M unit) : M unit :=
  with_ (FullLogDisplay_task self profile) block.

(** The sink's task scope cannot be opened. *)
Definition sink_task_fails : Behaviour :=
  fun ev _ =>
    match ev with
    | EvBranch BranchB (CTaskEnter _) => Raises "sink failure"
    | _ => Returns false
    end.

(** The terminal backend's task screen cannot be opened. *)
Definition terminal_screen_fails : Behaviour :=
  fun ev _ =>
    match ev with
    | EvBranch BranchA (CTaskScreenEnter _ _) => Raises "no terminal"
    | _ => Returns false
    end.

(** Closing the logging handler fails. *)
Definition handler_close_raises : Behaviour :=
  fun ev _ =>
    match ev with
    | EvHandlerClose _ => Raises "OSError"
    | _ => Returns false
    end.

Definition is_new_display (ev : Event) : bool :=
  match ev with
  | EvNewDisplay _ _ => true
  | _ => false
  end.

(** The display backends constructed, in order. *)
Definition displays_constructed (t : list Event) : list Event :=
  filter is_new_display t.

(** Object numbers are handed out in order: every handler attached to
    the root logger was created before now. *)
Definition handlers_are_older (w : World) : Prop :=
  forall h, In h (root_handlers (env w)) -> (h < next_obj (env w))%nat.

(** The number a string of decimal digits denotes, leading zeros
    allowed. *)
Fixpoint decimal_value (acc : Z) (s : string) : Z :=
  match s with
  | EmptyString => acc
  | String c s' => decimal_value (10 * acc + (Z.of_nat (nat_of_ascii c) - 48)) s'
  end.

(** The value of a lower-case hexadecimal digit. *)
Definition hex_value (c : ascii) : Z :=
  let n := Z.of_nat (nat_of_ascii c) in
  if n <? 58 then n - 48 else n - 87.

(** The path the first resolution assigns, from the clock reading and
    the random draw. *)
Definition log_path_for (t : DateTime) (u : Z) : string :=
  os_path_join "logs"
    ("terminal_log_" ++ strftime "%Y%m%dT%H%M%S" t ++ "_"
     ++ str_prefix 8 (uuid_hex u) ++ ".txt").

(** A process attached to a terminal. *)
Definition terminal_process : World :=
  mkWorld []
    (mkEnv None (fun _ => Absent) true
           (clock sample_env) 0 (rng sample_env) 0
           true false [] 0).

(** A process whose root logger already has a handler, object 0. *)
Definition configured_process : World :=
  mkWorld []
    (mkEnv None (fun _ => Absent) true
           (clock sample_env) 0 (rng sample_env) 0
           false false [0%nat] 1).

(** A block that reports the task as completed and is then
    interrupted. *)
Definition interrupted_task : TaskDisplay -> M unit :=
  fun td => (TaskDisplay_complete td TaskSuccess ;; raise "interrupted")%py.

(** Branch B's progress scope cannot be opened. *)
Definition b_progress_fails : Behaviour :=
  fun ev _ =>
    match ev with
    | EvBranch BranchB CProgressEnter => Raises "sink failure"
    | _ => Returns false
    end.

(** A block that reports progress on the handle it is given. *)
Definition reporting_block : Progress -> M unit :=
  fun pr => Progress_update pr 1.

(* ===================================================================== *)
(** * Part II. Properties                                                 *)
(* ===================================================================== *)

(** ** Tactics *)

(** Unfolds a use of the progress scope of a tee over recording
    branches down to case analyses on the behaviour. *)
Ltac run_py :=
  cbv beta iota zeta delta
    [with_ with_exit with_gen contextmanager yield bind ret raise attempt
     ext_call ext_call_ recording_scope recording_TaskDisplay
     tee_task_display tee_progress _TeeTaskDisplay _TeeTaskDisplay_progress
     TaskDisplay_progress fst snd].

(** Splits on the outcome of the next call on a collaborator, and on
    what decides the way an exception leaves a scope. *)
Ltac next_outcome :=
  match goal with
  | |- context [match ?beh ?ev ?w with Returns _ => _ | Raises _ => _ end] =>
      destruct (beh ev w) as [?|?]; run_py
  | |- context [if ?b then _ else _] =>
      is_var b; destruct b; run_py
  | |- context [if String.eqb ?x ?y then _ else _] =>
      destruct (String.eqb x y); run_py
  end.

(** Brings the trace of a world built by [record_event] to the form
    [trace w ++ [ev1; ...; evn]]. *)
Ltac trace_shape :=
  unfold record_event; cbn [trace env with_env];
  repeat rewrite <- app_assoc; cbn [app].

(** ** The model at work *)

Example strftime_sample :
  strftime "%Y%m%dT%H%M%S" (mkDateTime 2024 1 2 3 4 5) = "20240102T030405".
Proof. reflexivity. Qed.

Example os_path_join_samples :
  os_path_join "logs" "a.txt" = "logs/a.txt"
  /\ os_path_join "logs/" "a.txt" = "logs/a.txt"
  /\ os_path_join "" "a.txt" = "a.txt"
  /\ os_path_join "logs" "/tmp/a.txt" = "/tmp/a.txt".
Proof. repeat split. Qed.

Example hash_suffix_sample :
  str_prefix 8 (uuid_hex (3735928559 * 2 ^ 96 + 17)) = "deadbeef".
Proof. reflexivity. Qed.

Example first_resolution :
  let (r, w) := default_plain_log_path fresh_process in
  r = Ok "logs/terminal_log_20240102T030405_deadbeef.txt"
  /\ trace w = [EvMakedirs "logs" true]
  /\ cwd_entries (env w) "logs" = Dir.
Proof. repeat split. Qed.

Example makedirs_on_a_regular_file :
  fst (default_plain_log_path
         (with_env (set_cwd_entry "logs" RegularFile) fresh_process))
  = Raise "FileExistsError".
Proof. reflexivity. Qed.

(** The scenario of the specification: each branch receives the screen
    open, the task open, the metrics, the sample count, the completion,
    the task close and the screen close, in that order, and the logging
    handler is detached at the end. *)
Example scenario_run :
  let (r, w) := scenario calm fresh_process in
  let received :=
    [CTaskScreenEnter ["first"; "second"] false; CTaskEnter "first";
     CUpdateMetrics [("accuracy", Qmake 9 10)]; CSampleComplete 1 2;
     CComplete TaskSuccess; CTaskExit None; CTaskScreenExit None] in
  r = Ok tt
  /\ calls_on BranchA (trace w) = received
  /\ calls_on BranchB (trace w) = received
  /\ finalizations (trace w)
     = [EvFileFlush 0; EvRemoveHandler 1; EvHandlerClose 1]
  /\ root_handlers (env w) = [].
Proof. repeat split. Qed.

(** A generator that does not reach its [yield]: B's scope fails to open
    and A's exit swallows the exception. *)
Example generator_did_not_yield :
  let beh : Behaviour :=
    fun ev _ =>
      match ev with
      | EvBranch BranchB CProgressEnter => Raises "no progress"
      | EvBranch BranchA (CProgressExit _) => Returns true
      | _ => Returns false
      end in
  with_ (TaskDisplay_progress (tee_task_display beh))
        (fun p => Progress_update p 1) fresh_process
  = (Raise "RuntimeError: generator didn't yield",
     mkWorld [EvBranch BranchA CProgressEnter; EvBranch BranchB CProgressEnter;
              EvBranch BranchA (CProgressExit (Some "no progress"))]
             sample_env).
Proof. reflexivity. Qed.

(** ** Strings and patterns *)


Lemma string_length_app (s1 s2 : string) :
  String.length (s1 ++ s2) = (String.length s1 + String.length s2)%nat.
Proof.
  induction s1 as [|c s1 IH]; simpl; [reflexivity | now rewrite IH].
Qed.

Lemma matches_app (p1 p2 : list CharClass) :
  forall s1 s2,
    matches p1 s1 = true -> matches p2 s2 = true ->
    matches (p1 ++ p2) (s1 ++ s2) = true.
Proof.
  induction p1 as [|k p1 IH]; intros s1 s2 H1 H2.
  - destruct s1; [exact H2 | discriminate H1].
  - destruct s1 as [|c s1]; [discriminate H1|].
    simpl in *. apply andb_true_iff in H1 as [Hc Hs].
    now rewrite Hc, (IH _ _ Hs H2).
Qed.




(** A property checked on every number below a bound holds of every
    integer in the range. *)
Lemma checked_below (P : Z -> bool) (bound : Z) :
  forallb (fun i => P (Z.of_nat i)) (seq 0 (Z.to_nat bound)) = true ->
  forall z, 0 <= z < bound -> P z = true.
Proof.
  intros Hall z Hz.
  rewrite forallb_forall in Hall.
  specialize (Hall (Z.to_nat z)).
  rewrite Z2Nat.id in Hall by lia.
  apply Hall, in_seq. lia.
Qed.

Lemma two_digits (n : Z) :
  0 <= n < 100 -> matches [Digit; Digit] (zfill 2 (str_of_int n)) = true.
Proof.
  apply (checked_below (fun z => matches [Digit; Digit] (zfill 2 (str_of_int z))) 100).
  vm_compute. reflexivity.
Qed.

Lemma four_digits (n : Z) :
  0 <= n < 10000 -> matches (repeat Digit 4) (zfill 4 (str_of_int n)) = true.
Proof.
  apply (checked_below (fun z => matches (repeat Digit 4) (zfill 4 (str_of_int z))) 10000).
  vm_compute. reflexivity.
Qed.



Lemma hex_digits_length (k : nat) :
  forall n, String.length (hex_digits k n) = k.
Proof.
  induction k as [|k IH]; intros n; simpl.
  - reflexivity.
  - rewrite string_length_app, IH. simpl. lia.
Qed.


Lemma valid_datetime_ranges (t : DateTime) :
  valid_datetime t = true ->
  0 <= year t < 10000 /\ 0 <= month t < 100 /\ 0 <= day t < 100 /\
  0 <= hour t < 100 /\ 0 <= minute t < 100 /\ 0 <= second t < 100.
Proof.
  unfold valid_datetime. rewrite !andb_true_iff, !Z.leb_le. lia.
Qed.

Lemma timestamp_shape (t : DateTime) :
  valid_datetime t = true ->
  matches timestamp_pattern (strftime "%Y%m%dT%H%M%S" t) = true.
Proof.
  intros Hv. apply valid_datetime_ranges in Hv.
  destruct Hv as (Hy & Hm & Hd & HH & HM & HS).
  change (strftime "%Y%m%dT%H%M%S" t)
    with (zfill 4 (str_of_int (year t)) ++ zfill 2 (str_of_int (month t))
          ++ zfill 2 (str_of_int (day t)) ++ "T"
          ++ zfill 2 (str_of_int (hour t)) ++ zfill 2 (str_of_int (minute t))
          ++ zfill 2 (str_of_int (second t)) ++ "").
  change timestamp_pattern
    with (repeat Digit 4 ++ [Digit; Digit] ++ [Digit; Digit] ++ [Lit "T"]
          ++ [Digit; Digit] ++ [Digit; Digit] ++ [Digit; Digit] ++ [])%list.
  repeat first
    [ apply four_digits; assumption
    | apply two_digits; assumption
    | reflexivity
    | apply matches_app ].
Qed.


(** ** The log path: [default_plain_log_path] *)

Lemma default_plain_log_path_cached (w : World) (p : string) :
  _resolved_log_path (env w) = Some p ->
  default_plain_log_path w = (Ok p, w).
Proof.
  intros Hc. unfold default_plain_log_path, bind, read_resolved_log_path.
  now rewrite Hc.
Qed.

(** The first resolution, step by step: one clock reading, one random
    draw, one [makedirs], then the assignment of the global. *)
Lemma default_plain_log_path_fresh (w : World) :
  _resolved_log_path (env w) = None ->
  let now := clock (env w) (clock_reads (env w)) in
  let u := rng (env w) (rng_reads (env w)) mod 2 ^ 128 in
  let p := os_path_join "logs"
             ("terminal_log_" ++ strftime "%Y%m%dT%H%M%S" now ++ "_"
              ++ str_prefix 8 (uuid_hex u) ++ ".txt") in
  let w1 := with_env tick_rng (with_env tick_clock w) in
  default_plain_log_path w =
    match os_makedirs "logs" true w1 with
    | (Ok _, w2) => (Ok p, with_env (set_resolved_log_path (Some p)) w2)
    | (Raise e, w2) => (Raise e, w2)
    end.
Proof.
  intros Hc. cbv zeta.
  unfold default_plain_log_path, bind, read_resolved_log_path.
  rewrite Hc. unfold datetime_now_utc, uuid4. cbn [env with_env tick_clock
    clock clock_reads rng rng_reads tick_rng].
  destruct (os_makedirs "logs" true _) as [[[]|e] w2]; reflexivity.
Qed.

Lemma default_plain_log_path_memoizes (w w1 : World) (p : string) :
  default_plain_log_path w = (Ok p, w1) ->
  _resolved_log_path (env w1) = Some p.
Proof.
  destruct (_resolved_log_path (env w)) as [q|] eqn:Hc.
  - rewrite (default_plain_log_path_cached w q Hc). intros H.
    injection H as -> <-. exact Hc.
  - rewrite (default_plain_log_path_fresh w Hc).
    destruct (os_makedirs "logs" true _) as [[[]|e] w2]; intros H.
    + injection H as <- <-. reflexivity.
    + discriminate H.
Qed.

(** C7. Once a call of [default_plain_log_path] has returned a path,
    every later call in the process returns that same string, however
    many there are and whatever the rest of the process did to the clock,
    the random source or the file system in between. *)
Theorem default_plain_log_path_stable (w w1 : World) (p : string) :
  default_plain_log_path w = (Ok p, w1) ->
  forall between : list (World -> World),
    Forall keeps_resolved_log_path between ->
    Forall (fun r => r = Ok p) (later_calls between w1).
Proof.
  intros Hfirst between.
  apply default_plain_log_path_memoizes in Hfirst.
  revert w1 Hfirst.
  induction between as [|f rest IH]; intros w1 Hcache Hkeep; simpl.
  - constructor.
  - inversion Hkeep as [|f' rest' Hf Hrest]; subst.
    assert (Hc : _resolved_log_path (env (f w1)) = Some p)
      by (rewrite Hf; exact Hcache).
    rewrite (default_plain_log_path_cached _ _ Hc).
    constructor; [reflexivity|].
    apply IH; assumption.
Qed.

(** C10. After a first call has resolved the path, a later call changes
    nothing at all: it returns the cached path and leaves the world as
    it found it. No [makedirs] call is made, and a [logs] directory that
    was removed in the meantime stays absent. *)
Theorem default_plain_log_path_cached_is_pure (w0 w1 w2 : World) (p : string) :
  default_plain_log_path w0 = (Ok p, w1) ->
  _resolved_log_path (env w2) = _resolved_log_path (env w1) ->
  default_plain_log_path w2 = (Ok p, w2)
  /\ makedirs_calls (trace (snd (default_plain_log_path w2)))
     = makedirs_calls (trace w2)
  /\ (cwd_entries (env w2) "logs" = Absent ->
      cwd_entries (env (snd (default_plain_log_path w2))) "logs" = Absent).
Proof.
  intros Hfirst Hsame.
  apply default_plain_log_path_memoizes in Hfirst.
  rewrite <- Hsame in Hfirst.
  rewrite (default_plain_log_path_cached w2 p Hfirst).
  repeat split; auto.
Qed.


(** Witness of C7: a first call in a fresh process, then three more
    after the directory was removed, the clock moved and the random
    source advanced. *)
Lemma default_plain_log_path_stable_witness :
  let first := default_plain_log_path fresh_process in
  let removed := with_env (set_cwd_entry "logs" Absent) in
  fst first = Ok "logs/terminal_log_20240102T030405_deadbeef.txt"%string
  /\ Forall (fun r => r = Ok "logs/terminal_log_20240102T030405_deadbeef.txt"%string)
            (later_calls [removed; with_env tick_clock; with_env tick_rng]
                         (snd first)).
Proof.
  cbv zeta. split; [reflexivity|].
  apply (default_plain_log_path_stable fresh_process).
  - reflexivity.
  - repeat constructor.
Defined.

(** Witness of C10: the path is resolved, which creates [logs]; the
    directory is then removed; the next call returns the same path and
    the directory is still absent. *)
Lemma default_plain_log_path_cached_is_pure_witness :
  let w1 := snd (default_plain_log_path fresh_process) in
  let w2 := with_env (set_cwd_entry "logs" Absent) w1 in
  let p := "logs/terminal_log_20240102T030405_deadbeef.txt"%string in
  default_plain_log_path fresh_process = (Ok p, w1)
  /\ cwd_entries (env w1) "logs" = Dir
  /\ cwd_entries (env w2) "logs" = Absent
  /\ default_plain_log_path w2 = (Ok p, w2)
  /\ makedirs_calls (trace (snd (default_plain_log_path w2)))
     = makedirs_calls (trace w2)
  /\ cwd_entries (env (snd (default_plain_log_path w2))) "logs" = Absent.
Proof.
  cbv zeta. split; [reflexivity|]. split; [reflexivity|]. split; [reflexivity|].
  destruct (default_plain_log_path_cached_is_pure fresh_process
              (snd (default_plain_log_path fresh_process))
              (with_env (set_cwd_entry "logs" Absent)
                        (snd (default_plain_log_path fresh_process)))
              "logs/terminal_log_20240102T030405_deadbeef.txt")
    as (Hsame & Hcalls & Habsent).
  - reflexivity.
  - reflexivity.
  - split; [exact Hsame|]. split; [exact Hcalls|]. apply Habsent. reflexivity.
Defined.


(** ** Traces *)

Local Open Scope list_scope.

Lemma events_since_app (w : World) (t : list Event) (e : Env) :
  events_since w (mkWorld (trace w ++ t) e) = t.
Proof.
  unfold events_since. cbn [trace].
  rewrite skipn_app, skipn_all, Nat.sub_diag. reflexivity.
Qed.

Lemma events_since_record (w : World) (ev : Event) :
  events_since w (record_event ev w) = [ev].
Proof. apply events_since_app. Qed.

Lemma events_since_record2 (w : World) (ev1 ev2 : Event) :
  events_since w (record_event ev2 (record_event ev1 w)) = [ev1; ev2].
Proof.
  unfold record_event. cbn [trace env]. rewrite <- app_assoc.
  apply events_since_app.
Qed.

Lemma events_since_extension (w w' : World) (new : list Event) :
  trace w' = trace w ++ new -> events_since w w' = new.
Proof.
  intros Ht. unfold events_since. rewrite Ht.
  rewrite skipn_app, skipn_all, Nat.sub_diag. reflexivity.
Qed.

Lemma completions_on_app (br : Branch) (t1 t2 : list Event) :
  completions_on br (t1 ++ t2) = (completions_on br t1 + completions_on br t2)%nat.
Proof.
  unfold completions_on. now rewrite filter_app, length_app.
Qed.

(** ** The tees *)

Section Tees.

(** The behaviour of the two branches is arbitrary. *)
Variable beh : Behaviour.

(** Each of the five forwarding methods is the call on A followed by the
    same call on B, whatever the two branches are. *)
Lemma tee_call_forwards (pa pb : Progress) (ta tb : TaskDisplay) (op : TeeOp) :
  tee_call pa pb ta tb op =
  (forwarded_call pa ta op ;; forwarded_call pb tb op)%py.
Proof. destruct op; reflexivity. Qed.

Lemma run_tee_op_outcome (op : TeeOp) (w : World) :
  let ev_a := EvBranch BranchA (call_of op) in
  let ev_b := EvBranch BranchB (call_of op) in
  run_tee_op beh op w =
  match beh ev_a w with
  | Raises e => (Raise e, record_event ev_a w)
  | Returns _ =>
      match beh ev_b (record_event ev_a w) with
      | Raises e => (Raise e, record_event ev_b (record_event ev_a w))
      | Returns _ => (Ok tt, record_event ev_b (record_event ev_a w))
      end
  end.
Proof.
  cbv zeta. unfold run_tee_op. rewrite tee_call_forwards.
  destruct op; cbn [forwarded_call call_of recording_Progress
                    recording_TaskDisplay Progress_update Progress_complete
                    TaskDisplay_sample_complete TaskDisplay_update_metrics
                    TaskDisplay_complete];
    unfold bind, ext_call_, ext_call, ret, bind;
    (destruct (beh (EvBranch BranchA _) w); [|reflexivity]);
    destruct (beh (EvBranch BranchB _) _); reflexivity.
Qed.

(** C2. When branch A's forwarded call raises, in any of the five
    forwarding methods of the two tees and for any two branches, the tee
    raises that same exception and ends in the state A's call left:
    nothing of B has run. Over recording branches the only call recorded
    is the one on A, and the corresponding call on B is not made. *)
Theorem tee_stops_when_a_raises (op : TeeOp) :
  (forall (pa pb : Progress) (ta tb : TaskDisplay) (w w' : World) (e : Exn),
      forwarded_call pa ta op w = (Raise e, w') ->
      tee_call pa pb ta tb op w = (Raise e, w'))
  /\ (forall (w : World) (e : Exn),
        beh (EvBranch BranchA (call_of op)) w = Raises e ->
        run_tee_op beh op w
        = (Raise e, record_event (EvBranch BranchA (call_of op)) w)
        /\ events_since w (snd (run_tee_op beh op w))
           = [EvBranch BranchA (call_of op)]
        /\ ~ In (EvBranch BranchB (call_of op))
                (events_since w (snd (run_tee_op beh op w)))).
Proof.
  split.
  - intros pa pb ta tb w w' e Hraise.
    rewrite tee_call_forwards. unfold bind. now rewrite Hraise.
  - intros w e Hraise.
    rewrite run_tee_op_outcome. cbv zeta. rewrite Hraise. cbn [snd].
    rewrite events_since_record.
    repeat split.
    intros [Hin|[]]. discriminate Hin.
Qed.

(** C4. A forwarded operation of a tee is the call on branch A, run to
    its end, followed by the same call on branch B. Over recording
    branches the calls recorded by one operation are exactly
    [A's call; B's call] when A's call returns, and A's call alone when
    it raises, so B never sees a call that A has not seen before. *)
Theorem tee_forwards_a_then_b (op : TeeOp) :
  (forall (pa pb : Progress) (ta tb : TaskDisplay),
      tee_call pa pb ta tb op
      = (forwarded_call pa ta op ;; forwarded_call pb tb op)%py)
  /\ (forall w : World,
        events_since w (snd (run_tee_op beh op w)) =
        EvBranch BranchA (call_of op) ::
        (if returns_normally (beh (EvBranch BranchA (call_of op)) w)
         then [EvBranch BranchB (call_of op)]
         else [])).
Proof.
  split.
  - intros pa pb ta tb. apply tee_call_forwards.
  - intros w. rewrite run_tee_op_outcome. cbv zeta.
    destruct (beh (EvBranch BranchA (call_of op)) w); cbn [returns_normally].
    + destruct (beh (EvBranch BranchB (call_of op)) _); cbn [snd];
        apply events_since_record2.
    + cbn [snd]. apply events_since_record.
Qed.

(** C3, as the code has it. A call of [complete(result)] on the tee
    always reaches branch A, exactly once; it reaches branch B, exactly
    once, when A's call returns, and not at all when A's call raises. *)
Theorem complete_reaches_b_iff_a_returns (result : TaskResult)
    (w : World) :
  let after := snd (TaskDisplay_complete (tee_task_display beh) result w) in
  completions_on BranchA (events_since w after) = 1%nat
  /\ completions_on BranchB (events_since w after) =
     (if returns_normally (beh (EvBranch BranchA (CComplete result)) w)
      then 1%nat else 0%nat).
Proof.
  cbv zeta.
  change (TaskDisplay_complete (tee_task_display beh) result)
    with (run_tee_op beh (OpComplete result)).
  rewrite run_tee_op_outcome. cbv zeta. cbn [call_of].
  destruct (beh (EvBranch BranchA (CComplete result)) w); cbn [returns_normally].
  - destruct (beh (EvBranch BranchB (CComplete result)) _); cbn [snd];
      rewrite events_since_record2; split; reflexivity.
  - cbn [snd]. rewrite events_since_record. split; reflexivity.
Qed.

(** What one forwarded operation adds to the trace, as far as terminal
    notifications go. *)
Lemma run_tee_op_completions (br : Branch) (op : TeeOp)
    (w : World) :
  exists new,
    trace (snd (run_tee_op beh op w)) = trace w ++ new
    /\ (completions_on br new <= if is_complete_op op then 1 else 0)%nat.
Proof.
  rewrite run_tee_op_outcome. cbv zeta.
  destruct (beh (EvBranch BranchA (call_of op)) w).
  - exists [EvBranch BranchA (call_of op); EvBranch BranchB (call_of op)].
    split.
    + destruct (beh (EvBranch BranchB (call_of op)) _); cbn;
        now rewrite <- app_assoc.
    + destruct op, br; cbn; lia.
  - exists [EvBranch BranchA (call_of op)]. split; [reflexivity|].
    destruct op, br; cbn; lia.
Qed.

Lemma handle_lifetime_completions (br : Branch)
    (ops : list TeeOp) :
  forall w, exists new,
    trace (handle_lifetime beh ops w) = trace w ++ new
    /\ (completions_on br new <= List.length (filter is_complete_op ops))%nat.
Proof.
  induction ops as [|op rest IH]; intros w; cbn [handle_lifetime filter].
  - exists []. split; [now rewrite app_nil_r | cbn; lia].
  - destruct (run_tee_op_completions br op w) as (new1 & Ht1 & Hc1).
    destruct (IH (snd (run_tee_op beh op w))) as (new2 & Ht2 & Hc2).
    exists (new1 ++ new2). split.
    + now rewrite Ht2, Ht1, app_assoc.
    + rewrite completions_on_app.
      destruct (is_complete_op op); cbn [List.length]; lia.
Qed.

(** C9, as the code has it. Over the life of a tee handle, each branch
    receives at most as many terminal-completion notifications as the
    caller made [complete] calls on the tee; a single [complete] call
    therefore reaches each branch at most once. *)
Theorem completions_bounded_by_calls (br : Branch)
    (ops : list TeeOp) (w : World) :
  (completions_on br (events_since w (handle_lifetime beh ops w))
   <= List.length (filter is_complete_op ops))%nat.
Proof.
  destruct (handle_lifetime_completions br ops w) as (new & Ht & Hc).
  now rewrite (events_since_extension _ _ _ Ht).
Qed.

(** C5. A use of the progress scope of a Task Display Tee, once both
    branches have opened their scope, runs the block after exactly the
    two opens, A's then B's, and after the block, whether it returned or
    raised, closes B's scope and then A's, one close on each and nothing
    else. B's close is given the way the block ended, A's close what B's
    close handed on. *)
Theorem tee_progress_scope_brackets (block : Progress -> M unit) (w : World) :
  let open_a := EvBranch BranchA CProgressEnter in
  let open_b := EvBranch BranchB CProgressEnter in
  let inside := record_event open_b (record_event open_a w) in
  returns_normally (beh open_a w) = true ->
  returns_normally (beh open_b (record_event open_a w)) = true ->
  let body := block (tee_progress beh) inside in
  let exc_b := exception_of (fst body) in
  let close_b := EvBranch BranchB (CProgressExit exc_b) in
  let exc_a := handed_on (beh close_b (snd body)) exc_b in
  events_since w inside = [open_a; open_b]
  /\ trace (snd (with_ (TaskDisplay_progress (tee_task_display beh)) block w))
     = trace (snd body) ++ [close_b; EvBranch BranchA (CProgressExit exc_a)].
Proof.
  cbv zeta. intros Ha Hb.
  split; [apply events_since_record2|].
  run_py.
  destruct (beh (EvBranch BranchA CProgressEnter) w) as [ba|]; [|discriminate Ha].
  run_py.
  destruct (beh (EvBranch BranchB CProgressEnter) _) as [bb|]; [|discriminate Hb].
  run_py.
  destruct (block _ _) as [[[]|e] wb]; cbn [exception_of]; run_py;
    (destruct (beh (EvBranch BranchB (CProgressExit _)) wb) as [[|]|e'];
     cbn [handed_on]; run_py);
    repeat next_outcome; trace_shape; reflexivity.
Qed.

(** When A's scope cannot be opened, B's is not attempted. *)
Lemma tee_progress_scope_a_fails (block : Progress -> M unit) (w : World) (e : Exn) :
  beh (EvBranch BranchA CProgressEnter) w = Raises e ->
  with_ (TaskDisplay_progress (tee_task_display beh)) block w
  = (Raise e, record_event (EvBranch BranchA CProgressEnter) w).
Proof. intros Ha. run_py. rewrite Ha. reflexivity. Qed.

(** When B's scope cannot be opened, A's scope is closed again and the
    block does not run. *)
Lemma tee_progress_scope_b_fails (block : Progress -> M unit) (w : World) (e : Exn) :
  returns_normally (beh (EvBranch BranchA CProgressEnter) w) = true ->
  beh (EvBranch BranchB CProgressEnter)
      (record_event (EvBranch BranchA CProgressEnter) w) = Raises e ->
  events_since w
    (snd (with_ (TaskDisplay_progress (tee_task_display beh)) block w))
  = [EvBranch BranchA CProgressEnter; EvBranch BranchB CProgressEnter;
     EvBranch BranchA (CProgressExit (Some e))].
Proof.
  intros Ha Hb. run_py.
  destruct (beh (EvBranch BranchA CProgressEnter) w) as [ba|]; [|discriminate Ha].
  run_py. rewrite Hb. run_py.
  repeat next_outcome;
    (apply events_since_extension; trace_shape; reflexivity).
Qed.

End Tees.

(** C3, as stated, fails: when branch A raises on [complete], A has
    received the notification and B has not. *)
Lemma complete_can_reach_a_alone :
  ~ delivered_to_both_or_neither
      (events_since fresh_process
         (snd (TaskDisplay_complete (tee_task_display a_raises_on_complete)
                                    TaskSuccess fresh_process))).
Proof.
  vm_compute. intros [[Ha _]|[_ Hb]].
  - discriminate Ha.
  - inversion Hb.
Qed.

(** C9, as stated, fails: a caller that completes twice gets both
    notifications forwarded. *)
Lemma complete_twice_reaches_a_twice :
  ~ (completions_on BranchA
       (events_since fresh_process
          (handle_lifetime calm [OpComplete TaskSuccess; OpComplete TaskSuccess]
                           fresh_process)) <= 1)%nat.
Proof.
  assert (Htwo : completions_on BranchA
            (events_since fresh_process
               (handle_lifetime calm
                  [OpComplete TaskSuccess; OpComplete TaskSuccess]
                  fresh_process)) = 2%nat)
    by (vm_compute; reflexivity).
  rewrite Htwo. lia.
Qed.

(** Witness of C2: branch A raises on [update(3)]. *)
Lemma tee_stops_when_a_raises_witness :
  let pa := recording_Progress a_raises BranchA in
  let pb := recording_Progress a_raises BranchB in
  let ta := recording_TaskDisplay a_raises BranchA in
  let tb := recording_TaskDisplay a_raises BranchB in
  let ev_a := EvBranch BranchA (CUpdate 3) in
  forwarded_call pa ta (OpUpdate 3) fresh_process
  = (Raise "backend failure", record_event ev_a fresh_process)
  /\ tee_call pa pb ta tb (OpUpdate 3) fresh_process
     = (Raise "backend failure", record_event ev_a fresh_process)
  /\ a_raises ev_a fresh_process = Raises "backend failure"
  /\ events_since fresh_process (snd (run_tee_op a_raises (OpUpdate 3) fresh_process))
     = [ev_a].
Proof.
  cbv zeta.
  destruct (tee_stops_when_a_raises a_raises (OpUpdate 3)) as [Hany Hrec].
  split; [reflexivity|].
  split; [apply Hany; reflexivity|].
  split; [reflexivity|].
  apply (Hrec fresh_process "backend failure"). reflexivity.
Defined.

(** Witness of C4: [update(3)] over two branches that return. *)
Lemma tee_forwards_a_then_b_witness :
  events_since fresh_process (snd (run_tee_op calm (OpUpdate 3) fresh_process))
  = [EvBranch BranchA (CUpdate 3); EvBranch BranchB (CUpdate 3)].
Proof.
  destruct (tee_forwards_a_then_b calm (OpUpdate 3)) as [_ Hrec].
  apply (Hrec fresh_process).
Defined.

(** Witness of C5: both branches open, the block updates the progress
    and is then interrupted; B's scope is closed with the exception, then
    A's. *)
Lemma tee_progress_scope_brackets_witness :
  let block := fun p : Progress =>
                 (Progress_update p 3 ;; raise "interrupted")%py in
  let open_a := EvBranch BranchA CProgressEnter in
  let open_b := EvBranch BranchB CProgressEnter in
  returns_normally (calm open_a fresh_process) = true
  /\ returns_normally (calm open_b (record_event open_a fresh_process)) = true
  /\ trace (snd (with_ (TaskDisplay_progress (tee_task_display calm)) block
                       fresh_process))
     = [open_a; open_b;
        EvBranch BranchA (CUpdate 3); EvBranch BranchB (CUpdate 3);
        EvBranch BranchB (CProgressExit (Some "interrupted"%string));
        EvBranch BranchA (CProgressExit (Some "interrupted"%string))].
Proof.
  cbv zeta. split; [reflexivity|]. split; [reflexivity|].
  destruct (tee_progress_scope_brackets calm
              (fun p : Progress => (Progress_update p 3 ;; raise "interrupted")%py)
              fresh_process) as [_ Htrace].
  - reflexivity.
  - reflexivity.
  - exact Htrace.
Defined.

(** ** Calls a computation does not make *)

Section Quiet.

Variable p : Event -> bool.

Lemma quiet_ret {A : Type} (a : A) : quiet p (ret a).
Proof. intros w. reflexivity. Qed.

Lemma quiet_raise {A : Type} (e : Exn) : quiet p (raise (A := A) e).
Proof. intros w. reflexivity. Qed.

Lemma quiet_bind {A B : Type} (c : M A) (k : A -> M B) :
  quiet p c -> (forall a, quiet p (k a)) -> quiet p (bind c k).
Proof.
  intros Hc Hk w. unfold bind.
  specialize (Hc w). destruct (c w) as [[a|e] w1]; cbn [snd] in *.
  - now rewrite (Hk a w1).
  - exact Hc.
Qed.

Lemma quiet_attempt {A : Type} (c : M A) : quiet p c -> quiet p (attempt c).
Proof.
  intros Hc w. unfold attempt. specialize (Hc w).
  destruct (c w) as [r w1]. exact Hc.
Qed.

Lemma quiet_reraise {A : Type} (r : Result A) : quiet p (reraise r).
Proof. destruct r; intros w; reflexivity. Qed.

Lemma quiet_ext_call (beh : Behaviour) (ev : Event) :
  p ev = false -> quiet p (ext_call beh ev).
Proof.
  intros Hev w. unfold ext_call.
  destruct (beh ev w); cbn [snd record_event trace];
    rewrite filter_app; cbn; rewrite Hev; apply app_nil_r.
Qed.

Lemma quiet_ext_call_ (beh : Behaviour) (ev : Event) :
  p ev = false -> quiet p (ext_call_ beh ev).
Proof.
  intros Hev. apply quiet_bind; [now apply quiet_ext_call|].
  intros _. apply quiet_ret.
Qed.

Lemma quiet_with_exit (exit : Exit) (block : M unit) :
  (forall exc, quiet p (exit exc)) -> quiet p block ->
  quiet p (with_exit exit block).
Proof.
  intros Hexit Hblock. unfold with_exit.
  apply quiet_bind; [now apply quiet_attempt|].
  intros [[]|e].
  - apply quiet_bind; [apply Hexit | intros _; apply quiet_ret].
  - apply quiet_bind; [apply Hexit|].
    intros [|]; [apply quiet_ret | apply quiet_raise].
Qed.

Lemma quiet_with {Y : Type} (Q : Y -> Prop) (cm : CM Y) (block : Y -> M unit) :
  quiet_cm p Q cm -> (forall y, Q y -> quiet p (block y)) ->
  quiet p (with_ cm block).
Proof.
  intros Hcm Hblock w. unfold with_, bind.
  destruct (Hcm w) as [Henter Hyield].
  destruct (cm w) as [[[y exit]|e] w1]; cbn [fst snd] in *.
  - destruct Hyield as [Hy Hexit].
    now rewrite (quiet_with_exit exit (block y) Hexit (Hblock y Hy) w1).
  - exact Henter.
Qed.

Lemma quiet_yield {Y : Type} (Q : Y -> Prop) (y : Y) :
  Q y -> quiet_gen p Q (yield y).
Proof.
  intros Hy w. split; [reflexivity|]. cbn. split; [exact Hy|].
  intros [e|]; [apply quiet_raise | apply quiet_ret].
Qed.

Lemma quiet_with_gen {X Y : Type} (Q : X -> Prop) (R : Y -> Prop)
    (cm : CM X) (block : X -> Gen Y) :
  quiet_cm p Q cm -> (forall x, Q x -> quiet_gen p R (block x)) ->
  quiet_gen p R (with_gen cm block).
Proof.
  intros Hcm Hblock w. unfold with_gen, bind, attempt, ret, raise.
  destruct (Hcm w) as [Henter Hyield].
  destruct (cm w) as [[[x exit]|e] w1]; cbn [fst snd] in *;
    [|split; [exact Henter | exact I]].
  destruct Hyield as [Hx Hexit].
  destruct (Hblock x Hx w1) as [Hrun Hstep].
  destruct (block x w1) as [[[y resume|]|e] w2]; cbn [fst snd] in *.
  - split; [congruence|]. destruct Hstep as [Hy Hresume].
    split; [exact Hy|]. intros thrown.
    apply quiet_with_exit; [exact Hexit | apply Hresume].
  - pose proof (Hexit None w2) as Hq.
    destruct (exit None w2) as [[b|e] w3]; cbn [fst snd] in *;
      (split; [congruence | exact I]).
  - pose proof (Hexit (Some e) w2) as Hq.
    destruct (exit (Some e) w2) as [[[|]|e'] w3]; cbn [fst snd] in *;
      (split; [congruence | exact I]).
Qed.

Lemma quiet_try_finally {A : Type} (body : M A) (fin : M unit) :
  quiet p body -> quiet p fin -> quiet p (try_finally body fin).
Proof.
  intros Hbody Hfin. unfold try_finally.
  apply quiet_bind; [now apply quiet_attempt|]. intros r.
  apply quiet_bind; [exact Hfin|]. intros _. apply quiet_reraise.
Qed.

Lemma quiet_try_finally_gen {Y : Type} (Q : Y -> Prop) (gen : Gen Y)
    (fin : M unit) :
  quiet_gen p Q gen -> quiet p fin -> quiet_gen p Q (try_finally_gen gen fin).
Proof.
  intros Hgen Hfin w. unfold try_finally_gen, bind, attempt, ret, raise.
  destruct (Hgen w) as [Hrun Hstep].
  destruct (gen w) as [[[y resume|]|e] w1]; cbn [fst snd] in *.
  - split; [exact Hrun|]. destruct Hstep as [Hy Hresume].
    split; [exact Hy|]. intros thrown.
    apply quiet_try_finally; [apply Hresume | exact Hfin].
  - pose proof (Hfin w1) as Hq.
    destruct (fin w1) as [[[]|e] w2]; cbn [fst snd] in *;
      (split; [congruence | exact I]).
  - pose proof (Hfin w1) as Hq.
    destruct (fin w1) as [[[]|e'] w2]; cbn [fst snd] in *;
      (split; [congruence | exact I]).
Qed.

Lemma quiet_contextmanager {Y : Type} (Q : Y -> Prop) (gen : Gen Y) :
  quiet_gen p Q gen -> quiet_cm p Q (contextmanager gen).
Proof.
  intros Hgen w. unfold contextmanager, bind, ret, raise.
  destruct (Hgen w) as [Hrun Hstep].
  destruct (gen w) as [[[y resume|]|e] w1]; cbn [fst snd] in *;
    try (split; [exact Hrun | exact I]).
  destruct Hstep as [Hy Hresume].
  split; [exact Hrun|]. split; [exact Hy|].
  intros [e|].
  - apply quiet_bind; [apply quiet_attempt, Hresume|].
    intros [[]|e']; [apply quiet_ret|].
    destruct (String.eqb e' e); [apply quiet_ret | apply quiet_raise].
  - apply quiet_bind; [apply Hresume | intros _; apply quiet_ret].
Qed.

Lemma quiet_recording_scope {Y : Type} (Q : Y -> Prop) (beh : Behaviour)
    (enter : Event) (exit : option Exn -> Event) (y : Y) :
  p enter = false -> (forall exc, p (exit exc) = false) -> Q y ->
  quiet_cm p Q (recording_scope beh enter exit y).
Proof.
  intros Henter Hexit Hy w. unfold recording_scope, bind, ret.
  pose proof (quiet_ext_call beh enter Henter w) as Hq.
  destruct (ext_call beh enter w) as [[b|e] w1]; cbn [fst snd] in *.
  - split; [exact Hq|]. split; [exact Hy|].
    intros exc. apply quiet_ext_call, Hexit.
  - split; [exact Hq | exact I].
Qed.

Hypothesis p_off_backends : off_backends p.

Lemma quiet_recording_Progress (beh : Behaviour) (br : Branch) :
  quiet_Progress p (recording_Progress beh br).
Proof.
  split; [intros n|]; apply quiet_ext_call_, p_off_backends.
Qed.

Lemma quiet_recording_TaskDisplay (beh : Behaviour) (br : Branch) :
  quiet_TaskDisplay p (recording_TaskDisplay beh br).
Proof.
  unfold quiet_TaskDisplay. repeat apply conj; cbn.
  - apply quiet_recording_scope;
      [apply p_off_backends | intros exc; apply p_off_backends
      | apply quiet_recording_Progress].
  - intros c t. apply quiet_ext_call_, p_off_backends.
  - intros ms. apply quiet_ext_call_, p_off_backends.
  - intros r. apply quiet_ext_call_, p_off_backends.
Qed.

Lemma quiet_recording_Display (beh : Behaviour) (br : Branch) :
  quiet_Display p (recording_Display beh br).
Proof.
  unfold quiet_Display. repeat apply conj; cbn.
  - intros message. apply quiet_ext_call_, p_off_backends.
  - intros total. apply quiet_recording_scope;
      [apply p_off_backends | intros exc; apply p_off_backends
      | apply quiet_recording_Progress].
  - intros TR main Hmain. apply quiet_bind;
      [apply quiet_ext_call_, p_off_backends | intros _; exact Hmain].
  - apply quiet_recording_scope;
      [apply p_off_backends | intros exc; apply p_off_backends | exact I].
  - intros caption value. apply quiet_ext_call_, p_off_backends.
  - intros tasks parallel. apply quiet_recording_scope;
      [apply p_off_backends | intros exc; apply p_off_backends | exact I].
  - intros profile. apply quiet_recording_scope;
      [apply p_off_backends | intros exc; apply p_off_backends
      | apply quiet_recording_TaskDisplay].
Qed.

Lemma quiet_TeeProgress (pa pb : Progress) :
  quiet_Progress p pa -> quiet_Progress p pb ->
  quiet_Progress p (_TeeProgress pa pb).
Proof.
  intros [Hau Hac] [Hbu Hbc]. split; [intros n|]; cbn.
  - apply quiet_bind; [apply Hau | intros _; apply Hbu].
  - apply quiet_bind; [exact Hac | intros _; exact Hbc].
Qed.

Lemma quiet_TeeTaskDisplay (ta tb : TaskDisplay) :
  quiet_TaskDisplay p ta -> quiet_TaskDisplay p tb ->
  quiet_TaskDisplay p (_TeeTaskDisplay ta tb).
Proof.
  intros (Hap & Has & Ham & Hac) (Hbp & Hbs & Hbm & Hbc).
  unfold quiet_TaskDisplay. repeat apply conj; cbn.
  - apply quiet_contextmanager.
    apply (quiet_with_gen (quiet_Progress p)); [exact Hap|]. intros pa Hpa.
    apply (quiet_with_gen (quiet_Progress p)); [exact Hbp|]. intros pb Hpb.
    apply quiet_yield, quiet_TeeProgress; assumption.
  - intros c t. apply quiet_bind; [apply Has | intros _; apply Hbs].
  - intros ms. apply quiet_bind; [apply Ham | intros _; apply Hbm].
  - intros r. apply quiet_bind; [apply Hac | intros _; apply Hbc].
Qed.

Lemma quiet_logger_removeHandler (h : nat) :
  p (EvRemoveHandler h) = false -> quiet p (logger_removeHandler h).
Proof.
  intros Hev w. unfold logger_removeHandler.
  cbn [snd with_env record_event trace].
  rewrite filter_app. cbn. rewrite Hev. apply app_nil_r.
Qed.

(** The two nested scopes of [task_screen] are as quiet as the two
    backends. *)
Lemma quiet_task_screen_scopes (self : FullLogDisplay)
    (tasks : list TaskSpec) (parallel : bool) :
  quiet_Display p (_full self) -> quiet_Display p (_sink self) ->
  quiet_gen p (fun _ => True) (task_screen_scopes self tasks parallel).
Proof.
  intros (_ & _ & _ & _ & _ & Hfull & _) (_ & _ & _ & _ & _ & Hsink & _).
  unfold task_screen_scopes.
  apply (quiet_with_gen (fun _ => True)); [apply Hfull|]. intros screen _.
  apply (quiet_with_gen (fun _ => True)); [apply Hsink|]. intros _ _.
  apply quiet_yield. exact I.
Qed.

(** A [FullLogDisplay] is as quiet as its two backends, on everything
    but the three calls of its [finally] block. *)
Lemma quiet_FullLogDisplay (beh : Behaviour) (self : FullLogDisplay) :
  quiet_Display p (_full self) -> quiet_Display p (_sink self) ->
  p (EvFileFlush (_log_file self)) = false ->
  p (EvRemoveHandler (_log_handler self)) = false ->
  p (EvHandlerClose (_log_handler self)) = false ->
  quiet_Display p (FullLogDisplay_as_Display beh self).
Proof.
  intros Hfull Hsink Hflush Hremove Hclose.
  pose proof Hfull as (Fprint & Fprogress & Frun & Fsuspend & Fcounter & Fscreen & Ftask).
  pose proof Hsink as (_ & _ & _ & _ & _ & _ & Stask).
  unfold quiet_Display. repeat apply conj; cbn.
  - exact Fprint.
  - intros total. apply quiet_contextmanager.
    apply (quiet_with_gen (quiet_Progress p)); [apply Fprogress|].
    intros pr Hpr. apply quiet_yield. exact Hpr.
  - exact Frun.
  - apply quiet_contextmanager.
    apply (quiet_with_gen (fun _ => True)); [exact Fsuspend|].
    intros _ _. apply quiet_yield. exact I.
  - exact Fcounter.
  - intros tasks parallel. apply quiet_contextmanager.
    apply quiet_try_finally_gen;
      [apply quiet_task_screen_scopes; assumption|].
    apply quiet_bind; [apply quiet_ext_call_, Hflush|]. intros _.
    apply quiet_bind; [apply quiet_logger_removeHandler, Hremove|]. intros _.
    apply quiet_ext_call_, Hclose.
  - intros profile. apply quiet_contextmanager.
    apply (quiet_with_gen (quiet_TaskDisplay p)); [apply Ftask|].
    intros full_td Hfull_td.
    apply (quiet_with_gen (quiet_TaskDisplay p)); [apply Stask|].
    intros sink_td Hsink_td.
    apply quiet_yield, quiet_TeeTaskDisplay; assumption.
Qed.

End Quiet.

(** ** The task screen of [FullLogDisplay] *)

(** A [finally] around the body of a generator-based context manager
    runs once per use, after everything else the use did: whether the
    generator fails before its [yield], finishes without yielding, or is
    resumed after the block, normally or with an exception. *)
Lemma finally_runs_once_and_last {Y : Type} (gen : Gen Y) (fin : M unit)
    (block : Y -> M unit) (w : World) :
  snd (with_ (contextmanager (try_finally_gen gen fin)) block w)
  = snd (fin (snd (with_ (contextmanager gen) block w))).
Proof.
  unfold with_, with_exit, contextmanager, try_finally_gen, try_finally,
    bind, attempt, reraise, ret, raise.
  destruct (gen w) as [[[y resume|]|e] w1]; cbn [fst snd].
  - destruct (block y w1) as [[[]|eb] wb]; cbn [fst snd].
    + destruct (resume None wb) as [[[]|er] wr]; cbn [fst snd];
        destruct (fin wr) as [[[]|ef] wf]; reflexivity.
    + destruct (resume (Some eb) wb) as [[[]|er] wr]; cbn [fst snd].
      * destruct (fin wr) as [[[]|ef] wf]; try reflexivity.
        destruct (String.eqb ef eb); reflexivity.
      * destruct (String.eqb er eb); cbn [fst snd];
          destruct (fin wr) as [[[]|ef] wf]; try reflexivity;
          destruct (String.eqb er eb); try reflexivity;
          destruct (String.eqb ef eb); reflexivity.
  - destruct (fin w1) as [[[]|ef] wf]; reflexivity.
  - destruct (fin w1) as [[[]|ef] wf]; reflexivity.
Qed.

(** The [finally] block of [task_screen], once the flush has returned:
    the three calls in order, and the handler detached. *)
Lemma task_screen_finally_run (beh : Behaviour) (self : FullLogDisplay)
    (w : World) :
  returns_normally (beh (EvFileFlush (_log_file self)) w) = true ->
  let after := snd (task_screen_finally beh self w) in
  trace after
  = trace w ++ [EvFileFlush (_log_file self);
                EvRemoveHandler (_log_handler self);
                EvHandlerClose (_log_handler self)]
  /\ root_handlers (env after)
     = remove_first (_log_handler self) (root_handlers (env w)).
Proof.
  intros Hflush. cbv zeta.
  unfold task_screen_finally, file_flush, logger_removeHandler, handler_close,
    ext_call_, ext_call, bind, ret.
  destruct (beh (EvFileFlush (_log_file self)) w); [|discriminate Hflush].
  cbn [fst snd].
  destruct (beh (EvHandlerClose (_log_handler self)) _);
    split; trace_shape; reflexivity.
Qed.

(** C1, as the code has it. Each use of the task-screen scope, however
    the block ends and whatever the two backends do when their nested
    scopes are entered and left, is followed by exactly one flush of the
    log file, one removal and one close of the logging handler, in that
    order and after everything else, provided the flush itself returns.
    When neither the backends nor the block make such a call of their
    own, these three are all the use adds. The finalization belongs to
    the use of the scope, not to the instance. *)
Theorem task_screen_finalizes_each_use (beh : Behaviour) (self : FullLogDisplay)
    (tasks : list TaskSpec) (parallel : bool)
    (block : TaskScreen -> M unit) (w : World) :
  let scopes_done := snd (use_task_screen_scopes self tasks parallel block w) in
  let after := snd (use_task_screen beh self tasks parallel block w) in
  let finalization :=
    [EvFileFlush (_log_file self); EvRemoveHandler (_log_handler self);
     EvHandlerClose (_log_handler self)] in
  returns_normally (beh (EvFileFlush (_log_file self)) scopes_done) = true ->
  trace after = trace scopes_done ++ finalization
  /\ (quiet_Display is_finalization (_full self) ->
      quiet_Display is_finalization (_sink self) ->
      (forall y, quiet is_finalization (block y)) ->
      finalizations (trace after) = finalizations (trace w) ++ finalization)
  /\ root_handlers (env after)
     = remove_first (_log_handler self) (root_handlers (env scopes_done)).
Proof.
  cbv zeta. intros Hflush.
  unfold use_task_screen, FullLogDisplay_task_screen, asynccontextmanager.
  rewrite finally_runs_once_and_last.
  fold (asynccontextmanager (task_screen_scopes self tasks parallel)).
  fold (use_task_screen_scopes self tasks parallel block).
  destruct (task_screen_finally_run beh self _ Hflush) as [Htrace Hhandlers].
  split; [exact Htrace|]. split; [|exact Hhandlers].
  intros Hfull Hsink Hquiet.
  rewrite Htrace. unfold finalizations. rewrite filter_app. f_equal.
  apply (quiet_with is_finalization (fun _ => True)); [|intros y _; apply Hquiet].
  apply quiet_contextmanager, quiet_task_screen_scopes; assumption.
Qed.

(** C1, as stated, fails. A display used for two batches is finalized
    twice; and when the flush raises, the handler is neither removed nor
    closed. *)
Lemma task_screen_finalization_not_once_per_instance :
  match two_batches calm fresh_process with
  | (Ok d, w) => ~ finalized_exactly_once d (trace w)
  | (Raise _, _) => False
  end
  /\ ~ finalized_exactly_once (assembled flush_raises "log" 0 1)
         (trace (snd (use_task_screen flush_raises
                        (assembled flush_raises "log" 0 1)
                        ["task"] false idle_block fresh_process))).
Proof.
  split.
  - vm_compute. intros [Hflush _]. discriminate Hflush.
  - vm_compute. intros [_ [Hremove _]]. discriminate Hremove.
Qed.

(** Witness of C1: one use of the scope, over recording backends, whose
    block is interrupted. *)
Lemma task_screen_finalizes_each_use_witness :
  let block := fun _ : TaskScreen => raise (A := unit) "interrupted" in
  let self := assembled calm "log" 0 1 in
  let scopes_done :=
    snd (use_task_screen_scopes self ["task"%string] false block fresh_process) in
  let after := snd (use_task_screen calm self ["task"%string] false block fresh_process) in
  let finalization := [EvFileFlush 0; EvRemoveHandler 1; EvHandlerClose 1] in
  returns_normally (calm (EvFileFlush 0) scopes_done) = true
  /\ fst (use_task_screen calm self ["task"%string] false block fresh_process)
     = Raise "interrupted"
  /\ trace after = trace scopes_done ++ finalization
  /\ finalizations (trace after) = finalizations (trace fresh_process) ++ finalization
  /\ root_handlers (env after)
     = remove_first 1 (root_handlers (env scopes_done)).
Proof.
  cbv zeta. split; [reflexivity|]. split; [reflexivity|].
  destruct (task_screen_finalizes_each_use calm (assembled calm "log" 0 1)
              ["task"%string] false
              (fun _ : TaskScreen => raise (A := unit) "interrupted") fresh_process)
    as (Htrace & Hcount & Hhandlers).
  - reflexivity.
  - split; [exact Htrace|]. split; [|exact Hhandlers].
    apply Hcount.
    + apply quiet_recording_Display. intros br c. reflexivity.
    + apply quiet_recording_Display. intros br c. reflexivity.
    + intros y w1. reflexivity.
Defined.

(** ** Construction of [FullLogDisplay] *)

Lemma default_plain_log_path_effects (w w2 : World) (p : string) :
  default_plain_log_path w = (Ok p, w2) ->
  (trace w2 = trace w \/ trace w2 = trace w ++ [EvMakedirs "logs" true])
  /\ next_obj (env w2) = next_obj (env w)
  /\ root_handlers (env w2) = root_handlers (env w).
Proof.
  destruct (_resolved_log_path (env w)) as [q|] eqn:Hc.
  - rewrite (default_plain_log_path_cached w q Hc).
    intros H. injection H as _ <-. auto.
  - rewrite (default_plain_log_path_fresh w Hc).
    unfold os_makedirs.
    cbn [env with_env tick_rng tick_clock cwd_entries cwd_writable].
    destruct (cwd_entries (env w) "logs"); [destruct (cwd_writable (env w))| |];
      intros H; try discriminate H; injection H as _ <-;
      (split; [right; reflexivity | split; reflexivity]).
Qed.

(** What a successful [__init__] has done: the terminal side is the
    Textual display when standard output is a terminal and the console
    is not a notebook, the plain display otherwise; then the path is
    resolved, the file opened, the sink and the logging handler made and
    the handler attached. *)
Lemma init_effects (beh : Behaviour) (w w' : World) (d : FullLogDisplay) :
  FullLogDisplay___init__ beh w = (Ok d, w') ->
  let kind :=
    if (stdout_isatty (env w) && negb (console_is_jupyter (env w)))%bool
    then Textual else Plain in
  exists resolve,
    (resolve = [] \/ resolve = [EvMakedirs "logs" true])
    /\ trace w' =
       trace w ++ EvNewDisplay kind None :: resolve
       ++ [EvOpen (log_path d) "w" 1 (_log_file d);
           EvNewDisplay Plain (Some (mkConsole (_log_file d) false true false));
           EvNewFileHandler (log_path d) "a" (_log_handler d);
           EvSetLevel (_log_handler d) logging_DEBUG;
           EvSetFormatter (_log_handler d) log_format;
           EvAddHandler (_log_handler d)]
    /\ _resolved_log_path (env w') = Some (log_path d)
    /\ d = assembled beh (log_path d) (_log_file d) (_log_handler d).
Proof.
  unfold FullLogDisplay___init__, sys_stdout_isatty, rich_console_is_jupyter,
    TextualDisplay, PlainDisplay, builtin_open, logging_FileHandler,
    fresh_obj, handler_setLevel, handler_setFormatter, logger_addHandler,
    ext_call, bind, ret.
  destruct (stdout_isatty (env w) && negb (console_is_jupyter (env w)))%bool;
    (destruct (beh (EvNewDisplay _ None) w) as [?|?]; [|discriminate]);
    (destruct (default_plain_log_path _) as [[p|e] w2] eqn:Hpath; [|discriminate]);
    pose proof (default_plain_log_path_memoizes _ _ _ Hpath) as Hmemo;
    apply default_plain_log_path_effects in Hpath;
    destruct Hpath as (Htrace & Hobj & Hhandlers);
    cbn [fst snd];
    (destruct (beh (EvOpen _ _ _ _) _) as [?|?]; [|discriminate]);
    (destruct (beh (EvNewDisplay Plain (Some _)) _) as [?|?]; [|discriminate]);
    (destruct (beh (EvNewFileHandler _ _ _) _) as [?|?]; [|discriminate]);
    intros H; injection H as <- <-;
    cbn [log_path _log_file _log_handler];
    (destruct Htrace as [Ht|Ht];
       [exists [] | exists [EvMakedirs "logs" true]]);
    (split; [auto|]);
    (split; [trace_shape; rewrite Ht; trace_shape; reflexivity|]);
    (split; [exact Hmemo | reflexivity]).
Qed.

(** C6, as the code has it. An instance has one log path, the one
    resolved for the process, and one backing file: its constructor
    opens one file object on that path, once, for writing, and the only
    other object created on a file is the logging handler, on the same
    path, for appending. The file object is kept in a private attribute;
    the one public attribute is the path. The display never closes the
    file object: neither the constructor nor any operation of the
    display, nor any handle it gives out, makes a close call on it; the
    exit of the task-screen scope only flushes it. *)
Theorem full_log_display_owns_one_log_file (beh : Behaviour) (w w' : World)
    (d : FullLogDisplay) :
  FullLogDisplay___init__ beh w = (Ok d, w') ->
  _resolved_log_path (env w') = Some (log_path d)
  /\ file_openings (events_since w w')
     = [(log_path d, "w"%string, _log_file d);
        (log_path d, "a"%string, _log_handler d)]
  /\ count_events (is_open_of (_log_file d)) (events_since w w') = 1%nat
  /\ count_events (is_close_of (_log_file d)) (events_since w w') = 0%nat
  /\ quiet_Display (is_close_of (_log_file d)) (FullLogDisplay_as_Display beh d)
  /\ public_attributes d = [("log_path"%string, AStr (log_path d))].
Proof.
  intros Hinit.
  destruct (init_effects beh w w' d Hinit)
    as (resolve & Hresolve & Htrace & Hcache & Hd).
  rewrite (events_since_extension _ _ _ Htrace).
  split; [exact Hcache|].
  split; [destruct Hresolve as [-> | ->]; reflexivity|].
  split; [destruct Hresolve as [-> | ->]; cbn; rewrite Nat.eqb_refl; reflexivity|].
  split; [destruct Hresolve as [-> | ->]; reflexivity|].
  split; [|reflexivity].
  rewrite Hd.
  apply quiet_FullLogDisplay; try reflexivity;
    apply quiet_recording_Display; intros br c; reflexivity.
Qed.

(** C6, as stated, fails: over the whole life of a display, its log
    file object is opened once and never closed. *)
Lemma log_file_is_never_closed :
  match single_batch calm fresh_process with
  | (Ok d, w) => ~ opened_once_closed_once (_log_file d) (trace w)
  | (Raise _, _) => False
  end.
Proof. vm_compute. intros [_ Hclose]. discriminate Hclose. Qed.

(** Witness of C6: a display constructed in a fresh process. *)
Lemma full_log_display_owns_one_log_file_witness :
  let p := "logs/terminal_log_20240102T030405_deadbeef.txt"%string in
  let d := assembled calm p 0 1 in
  let w' := snd (FullLogDisplay___init__ calm fresh_process) in
  FullLogDisplay___init__ calm fresh_process = (Ok d, w')
  /\ _resolved_log_path (env w') = Some (log_path d)
  /\ file_openings (events_since fresh_process w')
     = [(log_path d, "w"%string, _log_file d);
        (log_path d, "a"%string, _log_handler d)]
  /\ count_events (is_open_of (_log_file d)) (events_since fresh_process w') = 1%nat
  /\ count_events (is_close_of (_log_file d)) (events_since fresh_process w') = 0%nat
  /\ quiet_Display (is_close_of (_log_file d)) (FullLogDisplay_as_Display calm d)
  /\ public_attributes d = [("log_path"%string, AStr (log_path d))].
Proof.
  cbv zeta. split; [reflexivity|].
  apply (full_log_display_owns_one_log_file calm fresh_process).
  reflexivity.
Defined.

(* ===================================================================== *)
(** * Part III. Further properties of the module                          *)
(* ===================================================================== *)

(** ** Generator-based context managers *)

(** Unfolds the statement forms of [with], [yield] and [contextlib] down
    to case analyses on what the scopes and the block do. *)
Ltac unfold_scopes :=
  cbv beta iota zeta delta
    [with_ with_exit contextmanager asynccontextmanager with_gen yield
     try_finally_gen try_finally bind attempt reraise ret raise fst snd].


(** A context manager that only wraps another one, [with cm as y: yield
    y], cannot be told from the one it wraps. *)
Lemma contextmanager_passthrough {Y : Type} (cm : CM Y) (block : Y -> M unit)
    (w : World) :
  with_ (contextmanager (with_gen cm (fun y => yield y))) block w
  = with_ cm block w.
Proof.
  unfold_scopes.
  destruct (cm w) as [[[y exit]|e] w1]; cbn [fst snd]; [|reflexivity].
  destruct (block y w1) as [[[]|eb] wb]; cbn [fst snd].
  - destruct (exit None wb) as [[b|e] w2]; reflexivity.
  - destruct (exit (Some eb) wb) as [[[|]|e] w2]; cbn [fst snd];
      try reflexivity.
    + rewrite String.eqb_refl. reflexivity.
    + destruct (String.eqb_spec e eb) as [->|Hne]; reflexivity.
Qed.

(** Two nested scopes around a [yield], both opened: the block runs on
    what the two scopes yielded, the inner scope is left with the way
    the block ended, the outer one with what the inner exit passed on,
    and the statement ends as the outer exit decides. *)
Lemma nested_scopes_run {A B Y : Type} (cm_a : CM A) (cm_b : CM B)
    (f : A -> B -> Y) (block : Y -> M unit) (w w1 w2 : World)
    (ya : A) (exit_a : Exit) (yb : B) (exit_b : Exit) :
  cm_a w = (Ok (ya, exit_a), w1) ->
  cm_b w1 = (Ok (yb, exit_b), w2) ->
  let body := block (f ya yb) w2 in
  let inner := exit_b (exception_of (fst body)) (snd body) in
  let exc_a := passed_on (fst inner) (exception_of (fst body)) in
  let outer := exit_a exc_a (snd inner) in
  with_ (contextmanager
           (with_gen cm_a (fun a => with_gen cm_b (fun b => yield (f a b)))))
        block w
  = (leaving (fst outer) exc_a, snd outer).
Proof.
  intros Ha Hb. cbv zeta.
  unfold_scopes.
  rewrite Ha. cbn [fst snd]. rewrite Hb. cbn [fst snd].
  destruct (block (f ya yb) w2) as [[[]|eb] wb]; cbn [fst snd exception_of].
  - destruct (exit_b None wb) as [[[|]|e2] w3]; cbn [fst snd passed_on];
      destruct (exit_a _ w3) as [[[|]|e3] w4]; reflexivity.
  - destruct (exit_b (Some eb) wb) as [[[|]|e2] w3]; cbn [fst snd passed_on];
      destruct (exit_a _ w3) as [[[|]|e3] w4]; cbn [fst snd leaving];
      try reflexivity;
      try (rewrite String.eqb_refl; reflexivity);
      repeat match goal with
             | |- context [String.eqb ?x ?y] =>
                 destruct (String.eqb_spec x y) as [->|?]
             end; reflexivity.
Qed.

(** The inner scope fails to open: the outer scope is left with that
    exception and the block does not run. *)
Lemma nested_scopes_inner_open_fails {A B Y : Type} (cm_a : CM A) (cm_b : CM B)
    (f : A -> B -> Y) (block : Y -> M unit) (w w1 w2 : World)
    (ya : A) (exit_a : Exit) (e : Exn) :
  cm_a w = (Ok (ya, exit_a), w1) ->
  cm_b w1 = (Raise e, w2) ->
  with_ (contextmanager
           (with_gen cm_a (fun a => with_gen cm_b (fun b => yield (f a b)))))
        block w
  = (match fst (exit_a (Some e) w2) with
     | Raise e' => Raise e'
     | Ok true => Raise "RuntimeError: generator didn't yield"
     | Ok false => Raise e
     end,
     snd (exit_a (Some e) w2)).
Proof.
  intros Ha Hb.
  unfold_scopes.
  rewrite Ha. cbn [fst snd]. rewrite Hb. cbn [fst snd].
  destruct (exit_a (Some e) w2) as [[[|]|e3] w3]; reflexivity.
Qed.

(** The outer scope fails to open: nothing else happens. *)
Lemma nested_scopes_outer_open_fails {A B Y : Type} (cm_a : CM A) (cm_b : CM B)
    (f : A -> B -> Y) (block : Y -> M unit) (w w1 : World) (e : Exn) :
  cm_a w = (Raise e, w1) ->
  with_ (contextmanager
           (with_gen cm_a (fun a => with_gen cm_b (fun b => yield (f a b)))))
        block w
  = (Raise e, w1).
Proof.
  intros Ha.
  unfold_scopes.
  rewrite Ha. reflexivity.
Qed.

(** A [finally] around the body of a generator-based context manager:
    the statement ends as it would without the [finally], unless the
    [finally] block raises, and then with that exception. *)
Lemma finally_outcome {Y : Type} (gen : Gen Y) (fin : M unit)
    (block : Y -> M unit) (w : World) :
  with_ (contextmanager (try_finally_gen gen fin)) block w
  = (let plain := with_ (contextmanager gen) block w in
     let final := fin (snd plain) in
     (match fst final with
      | Ok _ => fst plain
      | Raise e => Raise e
      end, snd final)).
Proof.
  cbv zeta.
  unfold_scopes.
  destruct (gen w) as [[[y resume|]|e] w1]; cbn [fst snd].
  - destruct (block y w1) as [[[]|eb] wb]; cbn [fst snd].
    + destruct (resume None wb) as [[[]|er] wr]; cbn [fst snd];
        destruct (fin wr) as [[[]|ef] wf]; reflexivity.
    + destruct (resume (Some eb) wb) as [[[]|er] wr]; cbn [fst snd].
      * destruct (fin wr) as [[[]|ef] wf]; cbn [fst snd]; try reflexivity.
        destruct (String.eqb_spec ef eb) as [->|?]; reflexivity.
      * destruct (String.eqb_spec er eb) as [->|?]; cbn [fst snd];
          destruct (fin wr) as [[[]|ef] wf]; cbn [fst snd];
          try rewrite String.eqb_refl; try reflexivity;
          repeat match goal with
                 | |- context [String.eqb ?x ?y] =>
                     destruct (String.eqb_spec x y) as [->|?]
                 end; try reflexivity; try contradiction.
  - destruct (fin w1) as [[[]|ef] wf]; reflexivity.
  - destruct (fin w1) as [[[]|ef] wf]; reflexivity.
Qed.

(** ** The operations of [FullLogDisplay] that go to the terminal only *)

(** X1. [print], [progress], [run_task_app], [suspend_task_app] and
    [display_counter] of a [FullLogDisplay] behave exactly as those of
    its terminal backend, whatever that backend is: same result, same
    final state, for every block run inside the two scopes. The sink,
    the log file and the logger are not involved. *)
Theorem terminal_only_operations (self : FullLogDisplay) :
  (forall message,
      FullLogDisplay_print self message = Display_print (_full self) message)
  /\ (forall total (block : Progress -> M unit) w,
        with_ (FullLogDisplay_progress self total) block w
        = with_ (Display_progress (_full self) total) block w)
  /\ (forall TR (main : M TR),
        FullLogDisplay_run_task_app self TR main
        = Display_run_task_app (_full self) TR main)
  /\ (forall (block : unit -> M unit) w,
        with_ (FullLogDisplay_suspend_task_app self) block w
        = with_ (Display_suspend_task_app (_full self)) block w)
  /\ (forall caption value,
        FullLogDisplay_display_counter self caption value
        = Display_display_counter (_full self) caption value).
Proof.
  repeat apply conj; try reflexivity.
  - intros total block w. apply contextmanager_passthrough.
  - intros block w. unfold FullLogDisplay_suspend_task_app.
    rewrite <- (contextmanager_passthrough
                  (Display_suspend_task_app (_full self)) block w).
    unfold_scopes.
    destruct (Display_suspend_task_app (_full self) w) as [[[[] exit]|e] w1];
      reflexivity.
Qed.

(** ** The task scope of [FullLogDisplay] *)

(** X2. A use of [task(profile)] whose two scopes open: the terminal
    backend's task scope is opened first, then the sink's; the block
    runs on the tee of the two handles yielded; the sink's scope is left
    first, with the way the block ended, then the terminal's, with what
    the sink's exit passed on; and the use ends as the terminal's exit
    decides. *)
Theorem task_runs_between_both_scopes (self : FullLogDisplay)
    (profile : TaskProfile) (block : TaskDisplay -> M unit) (w w1 w2 : World)
    (full_td sink_td : TaskDisplay) (exit_full exit_sink : Exit) :
  Display_task (_full self) profile w = (Ok (full_td, exit_full), w1) ->
  Display_task (_sink self) profile w1 = (Ok (sink_td, exit_sink), w2) ->
  let body := block (_TeeTaskDisplay full_td sink_td) w2 in
  let inner := exit_sink (exception_of (fst body)) (snd body) in
  let exc := passed_on (fst inner) (exception_of (fst body)) in
  let outer := exit_full exc (snd inner) in
  use_task self profile block w = (leaving (fst outer) exc, snd outer).
Proof.
  intros Hfull Hsink.
  exact (nested_scopes_run _ _ _TeeTaskDisplay block w w1 w2 _ _ _ _ Hfull Hsink).
Qed.

(** Witness of X2: both scopes open, the block completes the task and
    is interrupted; the exception goes through the sink's exit, then
    the terminal's, and leaves. *)
Lemma task_runs_between_both_scopes_witness :
  let self := assembled calm "log" 0 1 in
  let open_a := EvBranch BranchA (CTaskEnter "first") in
  let open_b := EvBranch BranchB (CTaskEnter "first") in
  let w1 := record_event open_a fresh_process in
  let w2 := record_event open_b w1 in
  let exit_of := fun br exc => ext_call calm (EvBranch br (CTaskExit exc)) in
  Display_task (_full self) "first" fresh_process
  = (Ok (recording_TaskDisplay calm BranchA, exit_of BranchA), w1)
  /\ Display_task (_sink self) "first" w1
     = (Ok (recording_TaskDisplay calm BranchB, exit_of BranchB), w2)
  /\ fst (use_task self "first" interrupted_task fresh_process)
     = Raise "interrupted"
  /\ trace (snd (use_task self "first" interrupted_task fresh_process))
     = [open_a; open_b;
        EvBranch BranchA (CComplete TaskSuccess);
        EvBranch BranchB (CComplete TaskSuccess);
        EvBranch BranchB (CTaskExit (Some "interrupted"%string));
        EvBranch BranchA (CTaskExit (Some "interrupted"%string))].
Proof.
  cbv zeta. split; [reflexivity|]. split; [reflexivity|].
  rewrite (task_runs_between_both_scopes (assembled calm "log" 0 1) "first"
             interrupted_task fresh_process
             (record_event (EvBranch BranchA (CTaskEnter "first")) fresh_process)
             (record_event (EvBranch BranchB (CTaskEnter "first"))
                (record_event (EvBranch BranchA (CTaskEnter "first"))
                   fresh_process))
             (recording_TaskDisplay calm BranchA)
             (recording_TaskDisplay calm BranchB)
             (fun exc => ext_call calm (EvBranch BranchA (CTaskExit exc)))
             (fun exc => ext_call calm (EvBranch BranchB (CTaskExit exc)))
             eq_refl eq_refl).
  split; reflexivity.
Defined.

(** X3. A use of [task(profile)] whose scopes do not open. When the
    terminal backend's scope fails to open, the sink is not touched and
    the exception leaves as it is. When the sink's scope fails to open,
    the terminal's scope is left with that exception, the block does not
    run, and the exception leaves unless the terminal's exit raises
    another; if the terminal's exit swallows it, the use ends with the
    error of a generator that did not yield. *)
Theorem task_open_failures (self : FullLogDisplay) (profile : TaskProfile)
    (block : TaskDisplay -> M unit) (w : World) :
  (forall e w1,
      Display_task (_full self) profile w = (Raise e, w1) ->
      use_task self profile block w = (Raise e, w1))
  /\ (forall full_td exit_full w1 e w2,
        Display_task (_full self) profile w = (Ok (full_td, exit_full), w1) ->
        Display_task (_sink self) profile w1 = (Raise e, w2) ->
        use_task self profile block w
        = (match fst (exit_full (Some e) w2) with
           | Raise e' => Raise e'
           | Ok true => Raise "RuntimeError: generator didn't yield"
           | Ok false => Raise e
           end,
           snd (exit_full (Some e) w2))).
Proof.
  split.
  - intros e w1 Hfull.
    exact (nested_scopes_outer_open_fails _ _ _TeeTaskDisplay block w w1 e Hfull).
  - intros full_td exit_full w1 e w2 Hfull Hsink.
    exact (nested_scopes_inner_open_fails _ _ _TeeTaskDisplay block
             w w1 w2 _ _ e Hfull Hsink).
Qed.

(** Witness of X3: a terminal backend that fails on every call, and a
    sink whose task scope does not open. *)
Lemma task_open_failures_witness :
  let open_a := EvBranch BranchA (CTaskEnter "first") in
  let open_b := EvBranch BranchB (CTaskEnter "first") in
  use_task (assembled a_raises "log" 0 1) "first" interrupted_task fresh_process
  = (Raise "backend failure", record_event open_a fresh_process)
  /\ use_task (assembled sink_task_fails "log" 0 1) "first" interrupted_task
              fresh_process
     = (Raise "sink failure",
        mkWorld [open_a; open_b;
                 EvBranch BranchA (CTaskExit (Some "sink failure"%string))]
                sample_env).
Proof.
  cbv zeta. split.
  - apply (proj1 (task_open_failures (assembled a_raises "log" 0 1) "first"
                    interrupted_task fresh_process)).
    reflexivity.
  - rewrite (proj2 (task_open_failures (assembled sink_task_fails "log" 0 1)
                      "first" interrupted_task fresh_process)
               (recording_TaskDisplay sink_task_fails BranchA)
               (fun exc => ext_call sink_task_fails
                             (EvBranch BranchA (CTaskExit exc)))
               (record_event (EvBranch BranchA (CTaskEnter "first"))
                  fresh_process)
               "sink failure"%string
               (record_event (EvBranch BranchB (CTaskEnter "first"))
                  (record_event (EvBranch BranchA (CTaskEnter "first"))
                     fresh_process))
               eq_refl eq_refl).
    reflexivity.
Defined.

(** ** More on the task screen *)

(** X4. A use of [task_screen] ends as its two nested scopes and the
    block make it end, unless the [finally] block raises: an exception
    of the flush or of the handler close replaces whatever was leaving,
    the block's own exception included. *)
Theorem task_screen_outcome (beh : Behaviour) (self : FullLogDisplay)
    (tasks : list TaskSpec) (parallel : bool)
    (block : TaskScreen -> M unit) (w : World) :
  let plain := use_task_screen_scopes self tasks parallel block w in
  let final := task_screen_finally beh self (snd plain) in
  use_task_screen beh self tasks parallel block w
  = (match fst final with
     | Ok _ => fst plain
     | Raise e => Raise e
     end, snd final).
Proof.
  cbv zeta. unfold use_task_screen, use_task_screen_scopes,
    FullLogDisplay_task_screen, asynccontextmanager.
  apply finally_outcome.
Qed.

(** X5. When the terminal backend's task screen fails to open, the
    sink's screen is not opened and the block does not run, and yet the
    [finally] block runs: the log file is flushed and the logging
    handler removed and closed, right after the failed open. *)
Theorem task_screen_open_failure_still_finalizes (beh : Behaviour)
    (self : FullLogDisplay) (tasks : list TaskSpec) (parallel : bool)
    (block : TaskScreen -> M unit) (w w1 : World) (e : Exn) :
  Display_task_screen (_full self) tasks parallel w = (Raise e, w1) ->
  let final := task_screen_finally beh self w1 in
  use_task_screen beh self tasks parallel block w
  = (match fst final with
     | Ok _ => Raise e
     | Raise e' => Raise e'
     end, snd final).
Proof.
  intros Hopen. cbv zeta.
  unfold use_task_screen, FullLogDisplay_task_screen, asynccontextmanager.
  rewrite finally_outcome. cbv zeta.
  unfold task_screen_scopes.
  rewrite (nested_scopes_outer_open_fails _ _ (fun screen _ => screen)
             block w w1 e Hopen).
  reflexivity.
Qed.

(** Witness of X5: no terminal to open the task screen on. *)
Lemma task_screen_open_failure_still_finalizes_witness :
  let self := assembled terminal_screen_fails "log" 0 1 in
  let open_a := EvBranch BranchA (CTaskScreenEnter ["task"%string] false) in
  Display_task_screen (_full self) ["task"%string] false fresh_process
  = (Raise "no terminal", record_event open_a fresh_process)
  /\ fst (use_task_screen terminal_screen_fails self ["task"%string] false
                          idle_block fresh_process)
     = Raise "no terminal"
  /\ trace (snd (use_task_screen terminal_screen_fails self ["task"%string]
                                 false idle_block fresh_process))
     = [open_a; EvFileFlush 0; EvRemoveHandler 1; EvHandlerClose 1].
Proof.
  cbv zeta. split; [reflexivity|].
  rewrite (task_screen_open_failure_still_finalizes terminal_screen_fails
             (assembled terminal_screen_fails "log" 0 1) ["task"%string] false
             idle_block fresh_process
             (record_event
                (EvBranch BranchA (CTaskScreenEnter ["task"%string] false))
                fresh_process)
             "no terminal"%string eq_refl).
  split; reflexivity.
Defined.

(** X6. A use of [task_screen] whose two screens open: the block
    receives the screen of the terminal backend, not the sink's; the
    sink's screen is left first, the terminal's second, and only then
    does the [finally] block run. *)
Theorem task_screen_order (beh : Behaviour) (self : FullLogDisplay)
    (tasks : list TaskSpec) (parallel : bool)
    (block : TaskScreen -> M unit) (w w1 w2 : World)
    (screen sink_screen : TaskScreen) (exit_full exit_sink : Exit) :
  Display_task_screen (_full self) tasks parallel w
  = (Ok (screen, exit_full), w1) ->
  Display_task_screen (_sink self) tasks parallel w1
  = (Ok (sink_screen, exit_sink), w2) ->
  let body := block screen w2 in
  let inner := exit_sink (exception_of (fst body)) (snd body) in
  let exc := passed_on (fst inner) (exception_of (fst body)) in
  let outer := exit_full exc (snd inner) in
  let final := task_screen_finally beh self (snd outer) in
  use_task_screen beh self tasks parallel block w
  = (match fst final with
     | Ok _ => leaving (fst outer) exc
     | Raise e => Raise e
     end, snd final).
Proof.
  intros Hfull Hsink. cbv zeta.
  unfold use_task_screen, FullLogDisplay_task_screen, asynccontextmanager.
  rewrite finally_outcome. cbv zeta.
  unfold task_screen_scopes.
  rewrite (nested_scopes_run _ _ (fun s _ => s) block w w1 w2 _ _ _ _
             Hfull Hsink).
  reflexivity.
Qed.

(** Witness of X6: one batch over two calm backends. *)
Lemma task_screen_order_witness :
  let self := assembled calm "log" 0 1 in
  let open_a := EvBranch BranchA (CTaskScreenEnter ["task"%string] false) in
  let open_b := EvBranch BranchB (CTaskScreenEnter ["task"%string] false) in
  let w1 := record_event open_a fresh_process in
  let w2 := record_event open_b w1 in
  let exit_of := fun br exc => ext_call calm (EvBranch br (CTaskScreenExit exc)) in
  Display_task_screen (_full self) ["task"%string] false fresh_process
  = (Ok (ScreenOf BranchA, exit_of BranchA), w1)
  /\ Display_task_screen (_sink self) ["task"%string] false w1
     = (Ok (ScreenOf BranchB, exit_of BranchB), w2)
  /\ trace (snd (use_task_screen calm self ["task"%string] false idle_block
                                 fresh_process))
     = [open_a; open_b;
        EvBranch BranchB (CTaskScreenExit None);
        EvBranch BranchA (CTaskScreenExit None);
        EvFileFlush 0; EvRemoveHandler 1; EvHandlerClose 1].
Proof.
  cbv zeta. split; [reflexivity|]. split; [reflexivity|].
  rewrite (task_screen_order calm (assembled calm "log" 0 1) ["task"%string]
             false idle_block fresh_process
             (record_event
                (EvBranch BranchA (CTaskScreenEnter ["task"%string] false))
                fresh_process)
             (record_event
                (EvBranch BranchB (CTaskScreenEnter ["task"%string] false))
                (record_event
                   (EvBranch BranchA (CTaskScreenEnter ["task"%string] false))
                   fresh_process))
             (ScreenOf BranchA) (ScreenOf BranchB)
             (fun exc => ext_call calm (EvBranch BranchA (CTaskScreenExit exc)))
             (fun exc => ext_call calm (EvBranch BranchB (CTaskScreenExit exc)))
             eq_refl eq_refl).
  reflexivity.
Defined.

(** X7. When the flush of the log file raises at the end of a use of
    [task_screen], the use raises that exception and the logging handler
    is neither removed nor closed: it stays attached to the root logger.
    When the flush returns and the handler close raises, the use raises
    that exception and the handler has been removed. *)
Theorem task_screen_finalization_failures (beh : Behaviour)
    (self : FullLogDisplay) (tasks : list TaskSpec) (parallel : bool)
    (block : TaskScreen -> M unit) (w : World) :
  let scopes_done := snd (use_task_screen_scopes self tasks parallel block w) in
  let flush := EvFileFlush (_log_file self) in
  let flushed :=
    with_env (set_root_handlers
                (remove_first (_log_handler self)
                              (root_handlers (env scopes_done))))
             (record_event (EvRemoveHandler (_log_handler self))
                           (record_event flush scopes_done)) in
  (forall e,
      beh flush scopes_done = Raises e ->
      use_task_screen beh self tasks parallel block w
      = (Raise e, record_event flush scopes_done))
  /\ (forall e,
        returns_normally (beh flush scopes_done) = true ->
        beh (EvHandlerClose (_log_handler self)) flushed = Raises e ->
        use_task_screen beh self tasks parallel block w
        = (Raise e, record_event (EvHandlerClose (_log_handler self)) flushed)).
Proof.
  cbv zeta.
  unfold use_task_screen, use_task_screen_scopes, FullLogDisplay_task_screen,
    asynccontextmanager.
  split.
  - intros e Hflush. rewrite finally_outcome. cbv zeta.
    unfold task_screen_finally, file_flush, ext_call_, ext_call, bind.
    rewrite Hflush. reflexivity.
  - intros e Hflush Hclose. rewrite finally_outcome. cbv zeta.
    unfold task_screen_finally, file_flush, logger_removeHandler,
      handler_close, ext_call_, ext_call, bind, ret.
    destruct (beh (EvFileFlush (_log_file self)) _); [|discriminate Hflush].
    unfold record_event, with_env in *. cbn [fst snd env trace] in *.
    rewrite Hclose. reflexivity.
Qed.

(** Witness of X7: with handler 1 attached, a failing flush leaves it
    attached; a failing close finds it removed. *)
Lemma task_screen_finalization_failures_witness :
  let attached := with_env (set_root_handlers [1%nat]) fresh_process in
  let after := fun beh =>
    use_task_screen beh (assembled beh "log" 0 1) ["task"%string] false
                    idle_block attached in
  (fst (after flush_raises) = Raise "OSError"
   /\ root_handlers (env (snd (after flush_raises))) = [1%nat])
  /\ (fst (after handler_close_raises) = Raise "OSError"
      /\ root_handlers (env (snd (after handler_close_raises))) = []).
Proof.
  cbv zeta. split.
  - rewrite (proj1 (task_screen_finalization_failures flush_raises
                      (assembled flush_raises "log" 0 1) ["task"%string] false
                      idle_block
                      (with_env (set_root_handlers [1%nat]) fresh_process))
               "OSError"%string eq_refl).
    split; reflexivity.
  - rewrite (proj2 (task_screen_finalization_failures handler_close_raises
                      (assembled handler_close_raises "log" 0 1)
                      ["task"%string] false idle_block
                      (with_env (set_root_handlers [1%nat]) fresh_process))
               "OSError"%string eq_refl eq_refl).
    split; reflexivity.
Defined.

(** ** More on the construction of [FullLogDisplay] *)

Lemma env_ext_call (beh : Behaviour) (ev : Event) (w : World) :
  env (snd (ext_call beh ev w)) = env w.
Proof. unfold ext_call. destruct (beh ev w); reflexivity. Qed.

Lemma default_plain_log_path_keeps_logger (w : World) :
  root_handlers (env (snd (default_plain_log_path w))) = root_handlers (env w)
  /\ next_obj (env (snd (default_plain_log_path w))) = next_obj (env w).
Proof.
  destruct (_resolved_log_path (env w)) as [q|] eqn:Hc.
  - rewrite (default_plain_log_path_cached w q Hc). split; reflexivity.
  - rewrite (default_plain_log_path_fresh w Hc).
    unfold os_makedirs.
    cbn [env with_env tick_rng tick_clock cwd_entries cwd_writable].
    destruct (cwd_entries (env w) "logs"); [destruct (cwd_writable (env w))| |];
      split; reflexivity.
Qed.

(** X8. A successful construction makes exactly two display backends:
    first the terminal one, the Textual display when standard output is
    a terminal and the console is not a notebook, the plain display
    otherwise; then the sink, a plain display on a console that writes
    to the log file just opened, with terminal control forced off,
    colour off and highlighting off. *)
Theorem init_constructs_terminal_then_sink (beh : Behaviour) (w w' : World)
    (d : FullLogDisplay) :
  FullLogDisplay___init__ beh w = (Ok d, w') ->
  displays_constructed (events_since w w')
  = [EvNewDisplay
       (if (stdout_isatty (env w) && negb (console_is_jupyter (env w)))%bool
        then Textual else Plain) None;
     EvNewDisplay Plain (Some (mkConsole (_log_file d) false true false))]
  /\ In (EvOpen (log_path d) "w" 1 (_log_file d)) (events_since w w').
Proof.
  intros Hinit.
  destruct (init_effects beh w w' d Hinit)
    as (resolve & Hresolve & Htrace & _ & _).
  rewrite (events_since_extension _ _ _ Htrace).
  destruct Hresolve as [-> | ->]; split; cbn; auto.
Qed.

(** Witness of X8: on a terminal the first backend is the Textual
    display; the sink is plain and writes to the log file, object 0. *)
Lemma init_constructs_terminal_then_sink_witness :
  let p := "logs/terminal_log_20240102T030405_deadbeef.txt"%string in
  let w' := snd (FullLogDisplay___init__ calm terminal_process) in
  FullLogDisplay___init__ calm terminal_process = (Ok (assembled calm p 0 1), w')
  /\ displays_constructed (events_since terminal_process w')
     = [EvNewDisplay Textual None;
        EvNewDisplay Plain (Some (mkConsole 0 false true false))]
  /\ In (EvOpen p "w" 1 0) (events_since terminal_process w').
Proof.
  cbv zeta. split; [reflexivity|].
  apply (init_constructs_terminal_then_sink calm terminal_process
           (snd (FullLogDisplay___init__ calm terminal_process))
           (assembled calm "logs/terminal_log_20240102T030405_deadbeef.txt" 0 1)).
  reflexivity.
Defined.




Lemma mem_nat_fresh (n h : nat) (hs : list nat) :
  (forall x, In x hs -> (x < n)%nat) -> (n <= h)%nat -> mem_nat h hs = false.
Proof.
  intros Hold Hh. unfold mem_nat.
  destruct (existsb (Nat.eqb h) hs) eqn:Hex; [|reflexivity].
  apply existsb_exists in Hex. destruct Hex as (x & Hin & Heq).
  apply Nat.eqb_eq in Heq. subst x. apply Hold in Hin. lia.
Qed.

Lemma remove_first_last (h : nat) (hs : list nat) :
  ~ In h hs -> remove_first h (hs ++ [h]) = hs.
Proof.
  induction hs as [|x hs IH]; intros Hnot; cbn.
  - now rewrite Nat.eqb_refl.
  - destruct (Nat.eqb_spec h x) as [->|Hne].
    + exfalso. apply Hnot. now left.
    + rewrite IH; [reflexivity|]. intros Hin. apply Hnot. now right.
Qed.

(** The constructor, step by step: each step either raises, which ends
    the construction there, or leads to the next. *)
Lemma init_steps (beh : Behaviour) (w : World) :
  let kind :=
    if (stdout_isatty (env w) && negb (console_is_jupyter (env w)))%bool
    then Textual else Plain in
  let w0 := record_event (EvNewDisplay kind None) w in
  FullLogDisplay___init__ beh w =
  match beh (EvNewDisplay kind None) w with
  | Raises e => (Raise e, w0)
  | Returns _ =>
      match default_plain_log_path w0 with
      | (Raise e, w2) => (Raise e, w2)
      | (Ok p, w2) =>
          let fd := next_obj (env w2) in
          let w3 := with_env bump_next_obj w2 in
          let ev_open := EvOpen p "w" 1 fd in
          let w4 := record_event ev_open w3 in
          let ev_sink :=
            EvNewDisplay Plain (Some (mkConsole fd false true false)) in
          let w5 := record_event ev_sink w4 in
          let h := S fd in
          let ev_handler := EvNewFileHandler p "a" h in
          let w6 := record_event ev_handler (with_env bump_next_obj w5) in
          let w7 := record_event (EvSetFormatter h log_format)
                      (record_event (EvSetLevel h logging_DEBUG) w6) in
          match beh ev_open w3 with
          | Raises e => (Raise e, w4)
          | Returns _ =>
              match beh ev_sink w4 with
              | Raises e => (Raise e, w5)
              | Returns _ =>
                  match beh ev_handler (with_env bump_next_obj w5) with
                  | Raises e => (Raise e, w6)
                  | Returns _ =>
                      (Ok (assembled beh p fd h), snd (logger_addHandler h w7))
                  end
              end
          end
      end
  end.
Proof.
  cbv zeta.
  unfold FullLogDisplay___init__, sys_stdout_isatty, rich_console_is_jupyter,
    TextualDisplay, PlainDisplay, builtin_open, logging_FileHandler,
    fresh_obj, handler_setLevel, handler_setFormatter,
    ext_call, bind, ret.
  destruct (stdout_isatty (env w) && negb (console_is_jupyter (env w)))%bool;
    (destruct (beh (EvNewDisplay _ None) w) as [?|?]; [|reflexivity]);
    (destruct (default_plain_log_path _) as [[p|e] w2]; [|reflexivity]);
    cbn [fst snd];
    (destruct (beh (EvOpen _ _ _ _) _) as [?|?]; [|reflexivity]);
    (destruct (beh (EvNewDisplay Plain (Some _)) _) as [?|?]; [|reflexivity]);
    (destruct (beh (EvNewFileHandler _ _ _) _) as [?|?]; reflexivity).
Qed.

(** What a construction does to the root logger, however it ends. *)
Lemma init_logger (beh : Behaviour) (w w' : World)
    (r : Result FullLogDisplay) :
  FullLogDisplay___init__ beh w = (r, w') ->
  handlers_are_older w ->
  handlers_are_older w'
  /\ match r with
     | Ok d =>
         _log_file d = next_obj (env w)
         /\ _log_handler d = S (next_obj (env w))
         /\ root_handlers (env w') = root_handlers (env w) ++ [_log_handler d]
     | Raise _ => root_handlers (env w') = root_handlers (env w)
     end.
Proof.
  intros Hinit Hold. rewrite init_steps in Hinit. cbv zeta in Hinit.
  assert (Hstill : forall w1,
             root_handlers (env w1) = root_handlers (env w) ->
             (next_obj (env w) <= next_obj (env w1))%nat ->
             handlers_are_older w1).
  { intros w1 Hh Hn h Hin. rewrite Hh in Hin. apply Hold in Hin. lia. }
  destruct (beh (EvNewDisplay _ None) w) as [?|?].
  2:{ injection Hinit as <- <-. split; [apply Hstill|]; reflexivity. }
  match type of Hinit with
  | context [default_plain_log_path ?w0] =>
      destruct (default_plain_log_path_keeps_logger w0) as [Hh Hn];
      destruct (default_plain_log_path w0) as [[p|e] w2]
  end; cbn [fst snd env record_event] in Hh, Hn.
  2:{ injection Hinit as <- <-.
      split; [apply Hstill; [exact Hh | rewrite Hn; lia] | exact Hh]. }
  destruct (beh (EvOpen _ _ _ _) _) as [?|?].
  2:{ injection Hinit as <- <-.
      split; [apply Hstill|];
        cbn [env record_event with_env bump_next_obj root_handlers next_obj];
        [exact Hh | rewrite Hn; lia | exact Hh]. }
  destruct (beh (EvNewDisplay Plain (Some _)) _) as [?|?].
  2:{ injection Hinit as <- <-.
      split; [apply Hstill|];
        cbn [env record_event with_env bump_next_obj root_handlers next_obj];
        [exact Hh | rewrite Hn; lia | exact Hh]. }
  destruct (beh (EvNewFileHandler _ _ _) _) as [?|?].
  2:{ injection Hinit as <- <-.
      split; [apply Hstill|];
        cbn [env record_event with_env bump_next_obj root_handlers next_obj];
        [exact Hh | rewrite Hn; lia | exact Hh]. }
  injection Hinit as <- <-.
  unfold logger_addHandler.
  cbn [snd env record_event with_env bump_next_obj set_root_handlers
       root_handlers next_obj assembled _log_file _log_handler].
  rewrite Hh, Hn.
  rewrite (mem_nat_fresh (next_obj (env w)) (S (next_obj (env w)))) by auto.
  split; [|repeat split].
  intros h Hin.
  cbn [env record_event with_env bump_next_obj set_root_handlers
       root_handlers next_obj] in *.
  apply in_app_or in Hin. destruct Hin as [Hin|[<-|[]]].
  - apply Hold in Hin. lia.
  - lia.
Qed.

(** X10. Construction and the root logger. A construction that fails,
    at whatever step, leaves the handlers of the root logger as they
    were; one that succeeds appends exactly its own new handler, an
    object created after the log file object. Either way every attached
    handler is still an object created before now. *)
Theorem init_and_the_root_logger (beh : Behaviour) (w w' : World)
    (r : Result FullLogDisplay) :
  FullLogDisplay___init__ beh w = (r, w') ->
  handlers_are_older w ->
  handlers_are_older w'
  /\ match r with
     | Ok d =>
         _log_file d = next_obj (env w)
         /\ _log_handler d = S (next_obj (env w))
         /\ root_handlers (env w') = root_handlers (env w) ++ [_log_handler d]
     | Raise _ => root_handlers (env w') = root_handlers (env w)
     end.
Proof. apply init_logger. Qed.

(** Witness of X10: in a process whose root logger has handler 0, a
    construction appends handler 2, and one whose [open] fails appends
    nothing. *)
Lemma init_and_the_root_logger_witness :
  let open_fails : Behaviour :=
    fun ev _ => match ev with
                | EvOpen _ _ _ _ => Raises "PermissionError"
                | _ => Returns false
                end in
  handlers_are_older configured_process
  /\ root_handlers
       (env (snd (FullLogDisplay___init__ calm configured_process)))
     = [0%nat; 2%nat]
  /\ root_handlers
       (env (snd (FullLogDisplay___init__ open_fails configured_process)))
     = [0%nat].
Proof.
  cbv zeta.
  assert (Hold : handlers_are_older configured_process).
  { intros h [<-|[]]. apply Nat.lt_0_1. }
  split; [exact Hold|]. split.
  - destruct (init_and_the_root_logger calm configured_process
                (snd (FullLogDisplay___init__ calm configured_process))
                (Ok (assembled calm
                       "logs/terminal_log_20240102T030405_deadbeef.txt" 1 2))
                eq_refl Hold) as (_ & _ & _ & Hh).
    exact Hh.
  - destruct (init_and_the_root_logger
                (fun ev _ => match ev with
                             | EvOpen _ _ _ _ => Raises "PermissionError"
                             | _ => Returns false
                             end)
                configured_process _ (Raise "PermissionError") eq_refl Hold)
      as (_ & Hh).
    exact Hh.
Defined.

(** The two nested screens of [task_screen], over recording backends,
    do nothing to the process state: it is as the block left it. *)
Lemma recording_screens_keep_handlers (beh : Behaviour) (path : string)
    (log_file handler : nat) (tasks : list TaskSpec) (parallel : bool)
    (block : TaskScreen -> M unit) (w : World) :
  (forall y w1, root_handlers (env (snd (block y w1))) = root_handlers (env w1)) ->
  root_handlers
    (env (snd (use_task_screen_scopes (assembled beh path log_file handler)
                                      tasks parallel block w)))
  = root_handlers (env w).
Proof.
  intros Hblock.
  unfold use_task_screen_scopes, asynccontextmanager, task_screen_scopes.
  cbn [assembled _full _sink recording_Display Display_task_screen].
  set (enter_a := EvBranch BranchA (CTaskScreenEnter tasks parallel)).
  set (enter_b := EvBranch BranchB (CTaskScreenEnter tasks parallel)).
  set (exit_a := fun exc => ext_call beh (EvBranch BranchA (CTaskScreenExit exc))).
  set (exit_b := fun exc => ext_call beh (EvBranch BranchB (CTaskScreenExit exc))).
  destruct (beh enter_a w) as [ba|ea] eqn:Ha.
  - assert (Hopen_a :
      recording_scope beh enter_a
        (fun exc => EvBranch BranchA (CTaskScreenExit exc)) (ScreenOf BranchA) w
      = (Ok (ScreenOf BranchA, exit_a), record_event enter_a w))
      by (unfold recording_scope, bind, ext_call, ret; now rewrite Ha).
    destruct (beh enter_b (record_event enter_a w)) as [bb|eb] eqn:Hb.
    + assert (Hopen_b :
        recording_scope beh enter_b
          (fun exc => EvBranch BranchB (CTaskScreenExit exc)) (ScreenOf BranchB)
          (record_event enter_a w)
        = (Ok (ScreenOf BranchB, exit_b),
           record_event enter_b (record_event enter_a w)))
        by (unfold recording_scope, bind, ext_call, ret; now rewrite Hb).
      rewrite (nested_scopes_run _ _ (fun screen _ => screen) block
                 _ _ _ _ _ _ _ Hopen_a Hopen_b).
      cbv zeta. cbn [snd]. unfold exit_a, exit_b.
      rewrite !env_ext_call. now rewrite Hblock.
    + assert (Hopen_b :
        recording_scope beh enter_b
          (fun exc => EvBranch BranchB (CTaskScreenExit exc)) (ScreenOf BranchB)
          (record_event enter_a w)
        = (Raise eb, record_event enter_b (record_event enter_a w)))
        by (unfold recording_scope, bind, ext_call, ret; now rewrite Hb).
      rewrite (nested_scopes_inner_open_fails _ _ (fun screen _ => screen) block
                 _ _ _ _ _ _ Hopen_a Hopen_b).
      cbn [snd]. unfold exit_a. now rewrite env_ext_call.
  - assert (Hopen_a :
      recording_scope beh enter_a
        (fun exc => EvBranch BranchA (CTaskScreenExit exc)) (ScreenOf BranchA) w
      = (Raise ea, record_event enter_a w))
      by (unfold recording_scope, bind, ext_call, ret; now rewrite Ha).
    rewrite (nested_scopes_outer_open_fails _ _ (fun screen _ => screen) block
               _ _ _ Hopen_a).
    reflexivity.
Qed.

(** X11. Attach and detach of the logging handler are a round trip. A
    display is constructed, which attaches its handler; later its task
    screen is used once, over the recording backends, with a block that
    leaves the root logger alone, and the flush returns: the handlers of
    the root logger are then exactly those from before the
    construction. *)
Theorem logger_is_restored (beh : Behaviour) (w w1 w2 : World)
    (d : FullLogDisplay) (tasks : list TaskSpec) (parallel : bool)
    (block : TaskScreen -> M unit) :
  FullLogDisplay___init__ beh w = (Ok d, w1) ->
  handlers_are_older w ->
  root_handlers (env w2) = root_handlers (env w1) ->
  (forall y w', root_handlers (env (snd (block y w'))) = root_handlers (env w')) ->
  returns_normally
    (beh (EvFileFlush (_log_file d))
         (snd (use_task_screen_scopes d tasks parallel block w2))) = true ->
  root_handlers (env (snd (use_task_screen beh d tasks parallel block w2)))
  = root_handlers (env w).
Proof.
  intros Hinit Hold Hbetween Hblock Hflush.
  destruct (init_logger beh w w1 (Ok d) Hinit Hold) as (_ & _ & Hh & Hattached).
  destruct (init_effects beh w w1 d Hinit) as (_ & _ & _ & _ & Hd).
  unfold use_task_screen, FullLogDisplay_task_screen, asynccontextmanager.
  rewrite finally_runs_once_and_last.
  fold (asynccontextmanager (task_screen_scopes d tasks parallel)).
  fold (use_task_screen_scopes d tasks parallel block).
  destruct (task_screen_finally_run beh d _ Hflush) as [_ Hremoved].
  rewrite Hremoved.
  rewrite Hd at 2.
  rewrite (recording_screens_keep_handlers beh _ _ _ tasks parallel block w2 Hblock).
  rewrite Hbetween, Hattached.
  apply remove_first_last.
  intros Hin. apply Hold in Hin. lia.
Qed.

(** Witness of X11: construction, then one batch, in a process whose
    root logger has handler 0: handler 0 alone is left. *)
Lemma logger_is_restored_witness :
  let p := "logs/terminal_log_20240102T030405_deadbeef.txt"%string in
  let d := assembled calm p 1 2 in
  let w1 := snd (FullLogDisplay___init__ calm configured_process) in
  FullLogDisplay___init__ calm configured_process = (Ok d, w1)
  /\ root_handlers (env w1) = [0%nat; 2%nat]
  /\ root_handlers
       (env (snd (use_task_screen calm d ["task"%string] false idle_block w1)))
     = [0%nat].
Proof.
  cbv zeta. split; [reflexivity|]. split; [reflexivity|].
  apply (logger_is_restored calm configured_process
           (snd (FullLogDisplay___init__ calm configured_process))
           (snd (FullLogDisplay___init__ calm configured_process))
           (assembled calm "logs/terminal_log_20240102T030405_deadbeef.txt" 1 2)
           ["task"%string] false idle_block).
  - reflexivity.
  - intros h [<-|[]]. apply Nat.lt_0_1.
  - reflexivity.
  - intros y w'. reflexivity.
  - reflexivity.
Defined.

(** ** More on the tees *)

(** X14. The progress scope of a [_TeeTaskDisplay] when a branch does
    not open. When A's scope fails to open, B's is not opened and the
    exception leaves as it is. When B's scope fails to open, A's scope
    is left with that exception, the block does not run, and the
    exception leaves unless A's exit raises another; if A's exit
    swallows it, the use ends with the error of a generator that did
    not yield. *)
Theorem tee_progress_open_failures (a b : TaskDisplay)
    (block : Progress -> M unit) (w : World) :
  (forall e w1,
      TaskDisplay_progress a w = (Raise e, w1) ->
      with_ (TaskDisplay_progress (_TeeTaskDisplay a b)) block w
      = (Raise e, w1))
  /\ (forall pa exit_a w1 e w2,
        TaskDisplay_progress a w = (Ok (pa, exit_a), w1) ->
        TaskDisplay_progress b w1 = (Raise e, w2) ->
        with_ (TaskDisplay_progress (_TeeTaskDisplay a b)) block w
        = (match fst (exit_a (Some e) w2) with
           | Raise e' => Raise e'
           | Ok true => Raise "RuntimeError: generator didn't yield"
           | Ok false => Raise e
           end,
           snd (exit_a (Some e) w2))).
Proof.
  cbn [TaskDisplay_progress _TeeTaskDisplay]. unfold _TeeTaskDisplay_progress.
  split.
  - intros e w1 Ha.
    exact (nested_scopes_outer_open_fails _ _ _TeeProgress block w w1 e Ha).
  - intros pa exit_a w1 e w2 Ha Hb.
    exact (nested_scopes_inner_open_fails _ _ _TeeProgress block
             w w1 w2 _ _ e Ha Hb).
Qed.

(** Witness of X14: a branch A that fails on every call, and a branch B
    whose progress scope does not open. *)
Lemma tee_progress_open_failures_witness :
  let tee := fun beh =>
    _TeeTaskDisplay (recording_TaskDisplay beh BranchA)
                    (recording_TaskDisplay beh BranchB) in
  let open_a := EvBranch BranchA CProgressEnter in
  let open_b := EvBranch BranchB CProgressEnter in
  with_ (TaskDisplay_progress (tee a_raises)) reporting_block fresh_process
  = (Raise "backend failure", record_event open_a fresh_process)
  /\ with_ (TaskDisplay_progress (tee b_progress_fails)) reporting_block
           fresh_process
     = (Raise "sink failure",
        mkWorld [open_a; open_b;
                 EvBranch BranchA (CProgressExit (Some "sink failure"%string))]
                sample_env).
Proof.
  cbv zeta. split.
  - apply (proj1 (tee_progress_open_failures
                    (recording_TaskDisplay a_raises BranchA)
                    (recording_TaskDisplay a_raises BranchB)
                    reporting_block fresh_process)).
    reflexivity.
  - rewrite (proj2 (tee_progress_open_failures
                      (recording_TaskDisplay b_progress_fails BranchA)
                      (recording_TaskDisplay b_progress_fails BranchB)
                      reporting_block fresh_process)
               (recording_Progress b_progress_fails BranchA)
               (fun exc => ext_call b_progress_fails
                             (EvBranch BranchA (CProgressExit exc)))
               (record_event (EvBranch BranchA CProgressEnter) fresh_process)
               "sink failure"%string
               (record_event (EvBranch BranchB CProgressEnter)
                  (record_event (EvBranch BranchA CProgressEnter)
                     fresh_process))
               eq_refl eq_refl).
    reflexivity.
Defined.

(** ** Calls the display makes of its own *)

(** X15. Outside [__init__] and [task_screen], a [FullLogDisplay] makes
    no call of its own. Take any class of calls that its two backends
    never make: then [print], [display_counter], [run_task_app] around a
    [main] that makes none, and a use of [progress], [suspend_task_app]
    or [task] around a block that makes none on the handle it is given,
    add none to the trace, however they end. In particular none of them
    flushes the log file or touches the root logger. *)
Theorem display_makes_no_call_of_its_own (p : Event -> bool)
    (self : FullLogDisplay) :
  quiet_Display p (_full self) ->
  quiet_Display p (_sink self) ->
  (forall message, quiet p (FullLogDisplay_print self message))
  /\ (forall total (block : Progress -> M unit),
        (forall pr, quiet_Progress p pr -> quiet p (block pr)) ->
        quiet p (with_ (FullLogDisplay_progress self total) block))
  /\ (forall TR (main : M TR),
        quiet p main -> quiet p (FullLogDisplay_run_task_app self TR main))
  /\ (forall block : unit -> M unit,
        (forall u, quiet p (block u)) ->
        quiet p (with_ (FullLogDisplay_suspend_task_app self) block))
  /\ (forall caption value,
        quiet p (FullLogDisplay_display_counter self caption value))
  /\ (forall profile (block : TaskDisplay -> M unit),
        (forall td, quiet_TaskDisplay p td -> quiet p (block td)) ->
        quiet p (use_task self profile block)).
Proof.
  intros (Fprint & Fprogress & Frun & Fsuspend & Fcounter & _ & Ftask)
         (_ & _ & _ & _ & _ & _ & Stask).
  repeat apply conj.
  - exact Fprint.
  - intros total block Hblock.
    apply (quiet_with p (quiet_Progress p)); [|exact Hblock].
    apply quiet_contextmanager.
    apply (quiet_with_gen p (quiet_Progress p)); [apply Fprogress|].
    intros pr Hpr. apply quiet_yield. exact Hpr.
  - exact Frun.
  - intros block Hblock.
    apply (quiet_with p (fun _ => True)); [|intros u _; apply Hblock].
    apply quiet_contextmanager.
    apply (quiet_with_gen p (fun _ => True)); [exact Fsuspend|].
    intros _ _. apply quiet_yield. exact I.
  - exact Fcounter.
  - intros profile block Hblock.
    apply (quiet_with p (quiet_TaskDisplay p)); [|exact Hblock].
    apply quiet_contextmanager.
    apply (quiet_with_gen p (quiet_TaskDisplay p)); [apply Ftask|].
    intros full_td Hfull_td.
    apply (quiet_with_gen p (quiet_TaskDisplay p)); [apply Stask|].
    intros sink_td Hsink_td.
    apply quiet_yield, quiet_TeeTaskDisplay; assumption.
Qed.

(** Witness of X15: over two recording backends, a task that completes
    and is interrupted leaves no flush, no handler removal and no
    handler close in the trace. *)
Lemma display_makes_no_call_of_its_own_witness :
  let self := assembled calm "log" 0 1 in
  quiet_Display is_finalization (_full self)
  /\ quiet_Display is_finalization (_sink self)
  /\ finalizations
       (trace (snd (use_task self "first" interrupted_task fresh_process)))
     = [].
Proof.
  cbv zeta.
  assert (Hoff : off_backends is_finalization) by (intros br c; reflexivity).
  assert (Hfull : quiet_Display is_finalization (_full (assembled calm "log" 0 1)))
    by (apply quiet_recording_Display; exact Hoff).
  assert (Hsink : quiet_Display is_finalization (_sink (assembled calm "log" 0 1)))
    by (apply quiet_recording_Display; exact Hoff).
  split; [exact Hfull|]. split; [exact Hsink|].
  destruct (display_makes_no_call_of_its_own is_finalization
              (assembled calm "log" 0 1) Hfull Hsink)
    as (_ & _ & _ & _ & _ & Htask).
  apply (Htask "first"%string interrupted_task).
  intros td (_ & _ & _ & Hcomplete).
  unfold interrupted_task.
  apply quiet_bind; [apply Hcomplete | intros _; apply quiet_raise].
Defined.

(** ** More on the log path *)

Local Open Scope string_scope.

(** X12. A resolution that fails is not remembered. A call of
    [default_plain_log_path] raises only when no path is resolved yet
    and [makedirs] fails, because [logs] is a regular file or cannot be
    created; the only call made is that [makedirs]; the global stays
    unset and the directory entry as it was; and a later call, once
    [logs] is a directory, resolves a path. *)
Theorem default_plain_log_path_failure (w w' : World) (e : Exn) :
  default_plain_log_path w = (Raise e, w') ->
  _resolved_log_path (env w) = None
  /\ (cwd_entries (env w) "logs" = RegularFile
      \/ (cwd_entries (env w) "logs" = Absent /\ cwd_writable (env w) = false))
  /\ events_since w w' = [EvMakedirs "logs" true]%list
  /\ _resolved_log_path (env w') = None
  /\ cwd_entries (env w') "logs" = cwd_entries (env w) "logs"
  /\ (forall w2,
        _resolved_log_path (env w2) = _resolved_log_path (env w') ->
        cwd_entries (env w2) "logs" = Dir ->
        exists p w3, default_plain_log_path w2 = (Ok p, w3)).
Proof.
  intros Hcall.
  destruct (_resolved_log_path (env w)) as [q|] eqn:Hc.
  { rewrite (default_plain_log_path_cached w q Hc) in Hcall. discriminate Hcall. }
  rewrite (default_plain_log_path_fresh w Hc) in Hcall.
  unfold os_makedirs in Hcall.
  cbn [env with_env tick_rng tick_clock cwd_entries cwd_writable] in Hcall.
  assert (Hretry : forall w2,
             _resolved_log_path (env w2) = None ->
             cwd_entries (env w2) "logs" = Dir ->
             exists p w3, default_plain_log_path w2 = (Ok p, w3)).
  { intros w2 Hc2 Hdir. rewrite (default_plain_log_path_fresh w2 Hc2).
    unfold os_makedirs.
    cbn [env with_env tick_rng tick_clock cwd_entries cwd_writable].
    rewrite Hdir. eexists. eexists. reflexivity. }
  destruct (cwd_entries (env w) "logs") eqn:Hentry;
    [destruct (cwd_writable (env w)) eqn:Hwritable| |];
    try discriminate Hcall; injection Hcall as _ <-;
    (split; [reflexivity|]);
    (split; [auto|]);
    (split; [apply events_since_extension; reflexivity|]);
    (split; [exact Hc|]);
    (split; [exact Hentry|]);
    intros w2 Hsame; apply Hretry; rewrite Hsame; exact Hc.
Qed.

(** Witness of X12: [logs] is a regular file; the call fails, and
    succeeds once a directory has taken its place. *)
Lemma default_plain_log_path_failure_witness :
  let blocked := with_env (set_cwd_entry "logs" RegularFile) fresh_process in
  let failed := snd (default_plain_log_path blocked) in
  let repaired := with_env (set_cwd_entry "logs" Dir) failed in
  default_plain_log_path blocked = (Raise "FileExistsError", failed)
  /\ _resolved_log_path (env failed) = None
  /\ exists p w3, default_plain_log_path repaired = (Ok p, w3).
Proof.
  cbv zeta.
  destruct (default_plain_log_path_failure
              (with_env (set_cwd_entry "logs" RegularFile) fresh_process)
              (snd (default_plain_log_path
                      (with_env (set_cwd_entry "logs" RegularFile) fresh_process)))
              "FileExistsError" eq_refl)
    as (_ & _ & _ & Hnone & _ & Hretry).
  split; [reflexivity|]. split; [exact Hnone|].
  apply Hretry; reflexivity.
Defined.

Lemma append_same_length_inj (a1 a2 b1 b2 : string) :
  String.length a1 = String.length a2 ->
  a1 ++ b1 = a2 ++ b2 -> a1 = a2 /\ b1 = b2.
Proof.
  revert a2. induction a1 as [|c a1 IH]; intros [|c2 a2] Hlen Heq;
    try discriminate Hlen.
  - split; [reflexivity | exact Heq].
  - cbn in Heq. injection Heq as -> Hrest. injection Hlen as Hlen.
    destruct (IH a2 Hlen Hrest) as [-> ->]. split; reflexivity.
Qed.

Lemma matches_length (pat : list CharClass) :
  forall s, matches pat s = true -> String.length s = List.length pat.
Proof.
  induction pat as [|k pat IH]; intros [|c s] H; try discriminate H.
  - reflexivity.
  - cbn in H. apply andb_true_iff in H as [_ H]. cbn. now rewrite (IH s H).
Qed.

Lemma two_digits_value (n : Z) :
  0 <= n < 100 -> decimal_value 0 (zfill 2 (str_of_int n)) = n.
Proof.
  intros Hn. apply Z.eqb_eq. revert n Hn.
  apply (checked_below
           (fun z => Z.eqb (decimal_value 0 (zfill 2 (str_of_int z))) z) 100).
  vm_compute. reflexivity.
Qed.

Lemma four_digits_value (n : Z) :
  0 <= n < 10000 -> decimal_value 0 (zfill 4 (str_of_int n)) = n.
Proof.
  intros Hn. apply Z.eqb_eq. revert n Hn.
  apply (checked_below
           (fun z => Z.eqb (decimal_value 0 (zfill 4 (str_of_int z))) z) 10000).
  vm_compute. reflexivity.
Qed.

Lemma two_digits_inj (n m : Z) :
  0 <= n < 100 -> 0 <= m < 100 ->
  zfill 2 (str_of_int n) = zfill 2 (str_of_int m) -> n = m.
Proof.
  intros Hn Hm Heq.
  now rewrite <- (two_digits_value n Hn), <- (two_digits_value m Hm), Heq.
Qed.

Lemma four_digits_inj (n m : Z) :
  0 <= n < 10000 -> 0 <= m < 10000 ->
  zfill 4 (str_of_int n) = zfill 4 (str_of_int m) -> n = m.
Proof.
  intros Hn Hm Heq.
  now rewrite <- (four_digits_value n Hn), <- (four_digits_value m Hm), Heq.
Qed.

Lemma two_digits_length (n : Z) :
  0 <= n < 100 -> String.length (zfill 2 (str_of_int n)) = 2%nat.
Proof. intros Hn. exact (matches_length _ _ (two_digits n Hn)). Qed.

Lemma four_digits_length (n : Z) :
  0 <= n < 10000 -> String.length (zfill 4 (str_of_int n)) = 4%nat.
Proof. intros Hn. exact (matches_length _ _ (four_digits n Hn)). Qed.

(** The timestamp format loses nothing: two valid times with the same
    timestamp are the same time. *)
Lemma timestamp_inj (t1 t2 : DateTime) :
  valid_datetime t1 = true -> valid_datetime t2 = true ->
  strftime "%Y%m%dT%H%M%S" t1 = strftime "%Y%m%dT%H%M%S" t2 -> t1 = t2.
Proof.
  intros Hv1 Hv2.
  apply valid_datetime_ranges in Hv1. apply valid_datetime_ranges in Hv2.
  destruct Hv1 as (Hy1 & Hm1 & Hd1 & HH1 & HM1 & HS1).
  destruct Hv2 as (Hy2 & Hm2 & Hd2 & HH2 & HM2 & HS2).
  change (strftime "%Y%m%dT%H%M%S" t1)
    with (zfill 4 (str_of_int (year t1)) ++ zfill 2 (str_of_int (month t1))
          ++ zfill 2 (str_of_int (day t1)) ++ "T"
          ++ zfill 2 (str_of_int (hour t1)) ++ zfill 2 (str_of_int (minute t1))
          ++ zfill 2 (str_of_int (second t1)) ++ "").
  change (strftime "%Y%m%dT%H%M%S" t2)
    with (zfill 4 (str_of_int (year t2)) ++ zfill 2 (str_of_int (month t2))
          ++ zfill 2 (str_of_int (day t2)) ++ "T"
          ++ zfill 2 (str_of_int (hour t2)) ++ zfill 2 (str_of_int (minute t2))
          ++ zfill 2 (str_of_int (second t2)) ++ "").
  intros Heq.
  apply append_same_length_inj in Heq as [Hy Heq];
    [|now rewrite !four_digits_length].
  apply append_same_length_inj in Heq as [Hm Heq];
    [|now rewrite !two_digits_length].
  apply append_same_length_inj in Heq as [Hd Heq];
    [|now rewrite !two_digits_length].
  apply (append_same_length_inj "T" "T") in Heq as [_ Heq]; [|reflexivity].
  apply append_same_length_inj in Heq as [HH Heq];
    [|now rewrite !two_digits_length].
  apply append_same_length_inj in Heq as [HM Heq];
    [|now rewrite !two_digits_length].
  apply append_same_length_inj in Heq as [HS _];
    [|now rewrite !two_digits_length].
  apply four_digits_inj in Hy; [|assumption..].
  apply two_digits_inj in Hm; [|assumption..].
  apply two_digits_inj in Hd; [|assumption..].
  apply two_digits_inj in HH; [|assumption..].
  apply two_digits_inj in HM; [|assumption..].
  apply two_digits_inj in HS; [|assumption..].
  destruct t1, t2; cbn in *; congruence.
Qed.

Lemma string_app_assoc (a b c : string) : (a ++ b) ++ c = a ++ (b ++ c).
Proof. induction a as [|x a IH]; cbn; [reflexivity | now rewrite IH]. Qed.

Lemma string_app_nil_r (a : string) : a ++ "" = a.
Proof. induction a as [|x a IH]; cbn; [reflexivity | now rewrite IH]. Qed.

Lemma substring_prefix_app (s1 s2 : string) :
  substring 0 (String.length s1) (s1 ++ s2) = s1.
Proof.
  induction s1 as [|c s1 IH]; cbn.
  - destruct s2; reflexivity.
  - now rewrite IH.
Qed.

Lemma hex_value_char (d : Z) : 0 <= d < 16 -> hex_value (hex_char d) = d.
Proof.
  intros Hd. apply Z.eqb_eq. revert d Hd.
  apply (checked_below (fun z => Z.eqb (hex_value (hex_char z)) z) 16).
  vm_compute. reflexivity.
Qed.

(** The [a + b] low digits are the [a] digits above the [b] lowest,
    followed by the [b] lowest. *)
Lemma hex_digits_split (a b : nat) :
  forall n,
    hex_digits (a + b) n
    = hex_digits a (n / 16 ^ Z.of_nat b) ++ hex_digits b n.
Proof.
  induction b as [|b IH]; intros n.
  - rewrite Nat.add_0_r. cbn [Z.of_nat hex_digits].
    now rewrite Z.pow_0_r, Z.div_1_r, string_app_nil_r.
  - rewrite Nat.add_succ_r. cbn [hex_digits].
    rewrite IH, string_app_assoc.
    rewrite Z.div_div by (try apply Z.pow_pos_nonneg; lia).
    rewrite Nat2Z.inj_succ, Z.pow_succ_r by lia.
    reflexivity.
Qed.

(** Equal digit strings denote numbers equal modulo [16 ^ k]. *)
Lemma hex_digits_inj (k : nat) :
  forall n m,
    hex_digits k n = hex_digits k m ->
    n mod 16 ^ Z.of_nat k = m mod 16 ^ Z.of_nat k.
Proof.
  induction k as [|k IH]; intros n m Heq.
  - cbn. now rewrite !Z.mod_1_r.
  - cbn [hex_digits] in Heq.
    apply append_same_length_inj in Heq as [Hhigh Hlow];
      [|now rewrite !hex_digits_length].
    injection Hlow as Hlow.
    assert (Hdigit : n mod 16 = m mod 16).
    { rewrite <- (hex_value_char (n mod 16)), <- (hex_value_char (m mod 16))
        by (apply Z.mod_pos_bound; lia).
      now rewrite Hlow. }
    apply IH in Hhigh.
    rewrite Nat2Z.inj_succ, Z.pow_succ_r by lia.
    rewrite !Z.rem_mul_r by (try apply Z.pow_nonzero; try apply Z.pow_pos_nonneg; lia).
    now rewrite Hdigit, Hhigh.
Qed.

(** The hash suffix is the top 32 bits of the 128-bit draw. *)
Lemma hash_suffix_is_the_top_bits (u : Z) :
  str_prefix 8 (uuid_hex u) = hex_digits 8 (u / 2 ^ 96).
Proof.
  unfold str_prefix, uuid_hex.
  change 32%nat with (8 + 24)%nat.
  rewrite hex_digits_split.
  change (16 ^ Z.of_nat 24) with (2 ^ 96).
  rewrite <- (hex_digits_length 8 (u / 2 ^ 96)) at 1.
  apply substring_prefix_app.
Qed.

Lemma log_path_for_inj (t1 t2 : DateTime) (u1 u2 : Z) :
  valid_datetime t1 = true -> valid_datetime t2 = true ->
  0 <= u1 < 2 ^ 128 -> 0 <= u2 < 2 ^ 128 ->
  (log_path_for t1 u1 = log_path_for t2 u2
   <-> t1 = t2 /\ u1 / 2 ^ 96 = u2 / 2 ^ 96).
Proof.
  intros Hv1 Hv2 Hu1 Hu2.
  unfold log_path_for. rewrite !hash_suffix_is_the_top_bits.
  split.
  - change (os_path_join "logs"
              ("terminal_log_" ++ strftime "%Y%m%dT%H%M%S" t1 ++ "_"
               ++ hex_digits 8 (u1 / 2 ^ 96) ++ ".txt"))
      with ("logs/terminal_log_" ++ strftime "%Y%m%dT%H%M%S" t1 ++ "_"
            ++ hex_digits 8 (u1 / 2 ^ 96) ++ ".txt").
    change (os_path_join "logs"
              ("terminal_log_" ++ strftime "%Y%m%dT%H%M%S" t2 ++ "_"
               ++ hex_digits 8 (u2 / 2 ^ 96) ++ ".txt"))
      with ("logs/terminal_log_" ++ strftime "%Y%m%dT%H%M%S" t2 ++ "_"
            ++ hex_digits 8 (u2 / 2 ^ 96) ++ ".txt").
    intros Heq.
    apply (append_same_length_inj "logs/terminal_log_" "logs/terminal_log_")
      in Heq as [_ Heq]; [|reflexivity].
    apply append_same_length_inj in Heq as [Ht Heq].
    2:{ rewrite (matches_length _ _ (timestamp_shape t1 Hv1)).
        now rewrite (matches_length _ _ (timestamp_shape t2 Hv2)). }
    apply (append_same_length_inj "_" "_") in Heq as [_ Heq]; [|reflexivity].
    apply append_same_length_inj in Heq as [Hh _];
      [|now rewrite !hex_digits_length].
    split; [exact (timestamp_inj t1 t2 Hv1 Hv2 Ht)|].
    apply hex_digits_inj in Hh.
    change (16 ^ Z.of_nat 8) with (2 ^ 32) in Hh.
    assert (Hsmall : forall u, 0 <= u < 2 ^ 128 -> 0 <= u / 2 ^ 96 < 2 ^ 32).
    { intros u [Hlo Hhi]. split.
      - apply Z.div_pos; lia.
      - apply Z.div_lt_upper_bound; [lia|].
        change (2 ^ 96 * 2 ^ 32) with (2 ^ 128). exact Hhi. }
    rewrite !Z.mod_small in Hh by (apply Hsmall; assumption).
    exact Hh.
  - intros [-> ->]. reflexivity.
Qed.

(** X13. Two first resolutions, in two processes say, return the same
    path exactly when their clock readings are the same second and
    their random draws agree on the top 32 of their 128 bits: the path
    keeps the whole timestamp and the first eight hexadecimal digits of
    the uuid, and nothing else of the draw. *)
Theorem log_paths_collide_iff (w1 w2 w1' w2' : World) (p1 p2 : string) :
  _resolved_log_path (env w1) = None ->
  _resolved_log_path (env w2) = None ->
  valid_datetime (clock (env w1) (clock_reads (env w1))) = true ->
  valid_datetime (clock (env w2) (clock_reads (env w2))) = true ->
  default_plain_log_path w1 = (Ok p1, w1') ->
  default_plain_log_path w2 = (Ok p2, w2') ->
  (p1 = p2
   <-> clock (env w1) (clock_reads (env w1))
       = clock (env w2) (clock_reads (env w2))
       /\ (rng (env w1) (rng_reads (env w1)) mod 2 ^ 128) / 2 ^ 96
          = (rng (env w2) (rng_reads (env w2)) mod 2 ^ 128) / 2 ^ 96).
Proof.
  intros Hc1 Hc2 Hv1 Hv2 Hcall1 Hcall2.
  rewrite (default_plain_log_path_fresh w1 Hc1) in Hcall1.
  rewrite (default_plain_log_path_fresh w2 Hc2) in Hcall2.
  destruct (os_makedirs "logs" true _) as [[[]|?] ?] in Hcall1;
    [|discriminate Hcall1].
  destruct (os_makedirs "logs" true _) as [[[]|?] ?] in Hcall2;
    [|discriminate Hcall2].
  injection Hcall1 as <- _. injection Hcall2 as <- _.
  apply log_path_for_inj; try assumption;
    apply Z.mod_pos_bound; lia.
Qed.

(** Witness of X13: the same second and the same first eight digits of
    the uuid, with different later digits: the two paths are the
    same. *)
Lemma log_paths_collide_iff_witness :
  let other := with_env tick_rng fresh_process in
  let p := "logs/terminal_log_20240102T030405_deadbeef.txt" in
  rng (env fresh_process) (rng_reads (env fresh_process))
  <> rng (env other) (rng_reads (env other))
  /\ default_plain_log_path fresh_process
     = (Ok p, snd (default_plain_log_path fresh_process))
  /\ default_plain_log_path other
     = (Ok p, snd (default_plain_log_path other))
  /\ (p = p
      <-> clock (env fresh_process) (clock_reads (env fresh_process))
          = clock (env other) (clock_reads (env other))
          /\ (rng (env fresh_process) (rng_reads (env fresh_process))
               mod 2 ^ 128) / 2 ^ 96
             = (rng (env other) (rng_reads (env other)) mod 2 ^ 128) / 2 ^ 96).
Proof.
  cbv zeta. split; [discriminate|]. split; [reflexivity|].
  split; [reflexivity|].
  apply (log_paths_collide_iff fresh_process (with_env tick_rng fresh_process)
           (snd (default_plain_log_path fresh_process))
           (snd (default_plain_log_path (with_env tick_rng fresh_process))));
    reflexivity.
Defined.
